(** * Mandelbrot escape-time engine: CPU quadrant path and CUDA kernel path

    Shallow embedding of [cuda.py]:
    - [mandelbrot] (the [while] loop run by the worker processes),
    - [compute_mandelbrot_region] and [ZoomableMandelbrot.plot_mandelbrot]
      (quadrant split, [executor.map], [np.concatenate] assembly),
    - [mandelbrot_cuda], [mandelbrot_kernel] and [compute_mandelbrot_gpu]
      (one CUDA thread per pixel, 16 x 16 thread blocks).

    Python [int]s are [Z].  Python [float]s are kept behind the interface
    [FloatOps]: the theorems hold for every arithmetic that satisfies the
    laws they name as hypotheses (rounding does not matter to them).  The
    instance [QFloat] interprets the interface with exact, normalised
    rationals; it satisfies all the laws and is used to evaluate the code
    on concrete inputs.  Both paths are given the same arithmetic. *)

From Stdlib Require Import ZArith QArith Qreduction.
From stdpp Require Import base tactics option list strings.

Local Open Scope Z_scope.

(** ** Numbers *)

(** The operations the program applies to Python floats.  [hypot_le x y r]
    is the test [abs(complex(x, y)) <= r] and [hypot_gt x y r] the test
    [abs(complex(x, y)) > r]; they are separate fields because the CPU loop
    uses the first and the CUDA loop the second. *)
Class FloatOps : Type := {
  float : Type;
  of_int : Z → float;
  fadd : float → float → float;
  fsub : float → float → float;
  fmul : float → float → float;
  fdiv : float → float → float;
  feqb : float → float → bool;
  hypot_le : float → float → float → bool;
  hypot_gt : float → float → float → bool
}.

Declare Scope float_scope.
Delimit Scope float_scope with F.
Bind Scope float_scope with float.
Infix "+" := fadd : float_scope.
Infix "-" := fsub : float_scope.
Infix "*" := fmul : float_scope.
Infix "/" := fdiv : float_scope.

Section Evaluators.
Context `{FloatOps}.

(** Python's built-in [complex]. *)
Record complex : Type := Complex { real : float; imag : float }.

Definition cadd (a b : complex) : complex :=
  Complex (real a + real b)%F (imag a + imag b)%F.

Definition cmul (a b : complex) : complex :=
  Complex (real a * real b - imag a * imag b)%F
          (real a * imag b + imag a * real b)%F.

(** [abs(z) <= r] and [abs(z) > r]. *)
Definition cabs_le (z : complex) (r : float) : bool :=
  hypot_le (real z) (imag z) r.

Definition cabs_gt (z : complex) (r : float) : bool :=
  hypot_gt (real z) (imag z) r.

(** [complex(0, 0)]. *)
Definition czero : complex := Complex (of_int 0) (of_int 0).

(** The loop body [z = z * z + c]. *)
Definition step (c z : complex) : complex := cadd (cmul z z) c.

(** *** [mandelbrot] (lines 10-16)

    [[
    while abs(z) <= 2 and n < max_iter:
        z = z * z + c
        n += 1
    return n
    ]]
    One unit of [fuel] is one evaluation of the loop body. *)
Fixpoint mandelbrot_while (fuel : nat) (c : complex) (max_iter : Z)
    (z : complex) (n : Z) : Z :=
  if cabs_le z (of_int 2) && (n <? max_iter) then
    match fuel with
    | O => n
    | S fuel' => mandelbrot_while fuel' c max_iter (step c z) (n + 1)
    end
  else n.

Definition mandelbrot (c : complex) (max_iter : Z) : Z :=
  mandelbrot_while (Z.to_nat max_iter) c max_iter czero 0.

(** Big-step semantics of the same [while] loop, without fuel:
    [while_run c max_iter z n r] holds when the loop entered in state
    [(z, n)] exits and the function returns [r]. *)
Inductive while_run (c : complex) (max_iter : Z) : complex → Z → Z → Prop :=
  | while_exit z n :
      cabs_le z (of_int 2) && (n <? max_iter) = false →
      while_run c max_iter z n n
  | while_iter z n r :
      cabs_le z (of_int 2) && (n <? max_iter) = true →
      while_run c max_iter (step c z) (n + 1) r →
      while_run c max_iter z n r.

(** *** [mandelbrot_cuda] (lines 132-139)

    [[
    for n in range(max_iter):
        if abs(z) > 2:
            return n
        z = z*z + c
    return max_iter
    ]]
    [range(max_iter)] is [seqZ 0 max_iter]. *)
Fixpoint mandelbrot_cuda_for (ns : list Z) (c : complex) (max_iter : Z)
    (z : complex) : Z :=
  match ns with
  | [] => max_iter
  | n :: ns' =>
      if cabs_gt z (of_int 2) then n
      else mandelbrot_cuda_for ns' c max_iter (step c z)
  end.

Definition mandelbrot_cuda (c : complex) (max_iter : Z) : Z :=
  mandelbrot_cuda_for (seqZ 0 max_iter) c max_iter czero.

(** The value of [z] after [n] executions of the loop body. *)
Definition orbit (c : complex) (n : nat) : complex :=
  Nat.iter n (step c) czero.

(** The contract of the specification: [r] is the smallest [n] in
    [[0, max_iter]] such that [|z| > 2] after [n] steps from [z = 0], or
    [max_iter] if there is no such [n]. *)
Definition escape_count_spec (c : complex) (max_iter : Z) (r : Z) : Prop :=
  0 ≤ r ≤ max_iter
  ∧ (∀ m : nat, Z.of_nat m < r → cabs_gt (orbit c m) (of_int 2) = false)
  ∧ ((∃ n : nat, Z.of_nat n ≤ max_iter
               ∧ cabs_gt (orbit c n) (of_int 2) = true) →
     cabs_gt (orbit c (Z.to_nat r)) (of_int 2) = true)
  ∧ ((∀ n : nat, Z.of_nat n ≤ max_iter →
               cabs_gt (orbit c n) (of_int 2) = false) →
     r = max_iter).

End Evaluators.

Arguments complex : clear implicits.
Arguments complex {_}.

(** ** Exceptions *)

(** Python exceptions are values of [exn]; a computation that may raise
    returns a [result]. *)
Inductive exn : Type := ValueError | IndexError.

Inductive result (A : Type) : Type :=
  | Ok (a : A)
  | Raise (e : exn).
Arguments Ok {A} a.
Arguments Raise {A} e.

#[export] Instance result_ret : MRet result := λ A a, Ok a.
#[export] Instance result_bind : MBind result := λ A B f m,
  match m with Ok a => f a | Raise e => Raise e end.
#[export] Instance result_fmap : FMap result := λ A B f m,
  match m with Ok a => Ok (f a) | Raise e => Raise e end.

(** ** The numpy operations the program calls *)

(** A two-dimensional array is the list of its rows. *)
Abbreviation grid A := (list (list A)).

(** [a[row, column]]. *)
Definition cell {A} (a : grid A) (row column : nat) : option A :=
  a !! row ≫= λ r, r !! column.

(** [a.shape == (rows, columns)]. *)
Definition has_shape {A} (a : grid A) (rows columns : nat) : Prop :=
  length a = rows ∧ Forall (λ r, length r = columns) a.

(** The array of the images of the entries of [a] under [f]. *)
Definition grid_map {A B} (f : A → B) (a : grid A) : grid B :=
  (λ r : list A, f <$> r) <$> a.

(** The rows of a flat array cut into [rows] rows of [columns] entries. *)
Fixpoint chunks {A} (rows columns : nat) (l : list A) : grid A :=
  match rows with
  | O => []
  | S rows' => take columns l :: chunks rows' columns (drop columns l)
  end.

(** [l.reshape((rows, columns))]: numpy raises [ValueError] when the sizes
    do not match.  (The program only calls it with the non-negative sizes
    it has just passed to [linspace].) *)
Definition reshape {A} (l : list A) (rows columns : Z) : result (grid A) :=
  if (rows <? 0) || (columns <? 0) then Raise ValueError
  else if Z.of_nat (length l) =? rows * columns
  then Ok (chunks (Z.to_nat rows) (Z.to_nat columns) l)
  else Raise ValueError.

(** [np.concatenate((a, b), axis=1)]: the rows of [b] are appended to the
    rows of [a]; both must have the same number of rows. *)
Definition concatenate_axis1 {A} (a b : grid A) : result (grid A) :=
  if decide (length a = length b) then Ok (zip_with app a b)
  else Raise ValueError.

(** [np.concatenate((a, b), axis=0)]: the rows of [a], then the rows of
    [b]; both must have the same number of columns.  (An array without
    rows is accepted here whatever its second dimension was.) *)
Definition concatenate_axis0 {A} (a b : grid A) : result (grid A) :=
  match a, b with
  | ra :: _, rb :: _ =>
      if decide (length ra = length rb) then Ok (a ++ b) else Raise ValueError
  | _, _ => Ok (a ++ b)
  end.

(** The value an [np.int32] cell holds after the integer [v] is stored in
    it: the low 32 bits of [v] read as a signed integer (a store into the
    array truncates the 64-bit integer of the kernel). *)
Definition to_int32 (v : Z) : Z := (v + 2 ^ 31) mod 2 ^ 32 - 2 ^ 31.

(** [np.zeros((rows, columns), dtype=np.int32)].  An [np.int32] array is a
    grid of integers of [[-2^31, 2^31)]: [zeros] fills it with 0 and
    [image_store], the only operation that writes to it, converts what it
    stores with [to_int32]. *)
Definition zeros (rows columns : Z) : result (grid Z) :=
  if (rows <? 0) || (columns <? 0) then Raise ValueError
  else Ok (replicate (Z.to_nat rows) (replicate (Z.to_nat columns) 0)).

Section Numpy.
Context `{FloatOps}.

(** [np.linspace(start, stop, num)] with the default [endpoint=True],
    following numpy's implementation: [div = num - 1], the samples are
    [arange(0, num) * step + start] with [step = delta / div] (rescued as
    [arange / div * delta] when [step == 0]), and the last one is
    overwritten with [stop] when [num > 1]. *)
Definition linspace (start stop : float) (num : Z) : result (list float) :=
  if num <? 0 then Raise ValueError
  else
    let div := num - 1 in
    let delta := (stop - start)%F in
    let y := of_int <$> seqZ 0 num in
    let y :=
      if 0 <? div then
        let step := (delta / of_int div)%F in
        if feqb step (of_int 0)
        then (λ i, (i / of_int div * delta)%F) <$> y
        else (λ i, (i * step)%F) <$> y
      else (λ i, (i * delta)%F) <$> y in
    let y := (λ v, (v + start)%F) <$> y in
    Ok (if 1 <? num then <[Z.to_nat (num - 1) := stop]> y else y).

(** [np.array(np.meshgrid(x, y)).T.reshape(-1, 2)] followed by
    [C[:, 0] + 1j * C[:, 1]].  [meshgrid] gives two arrays of shape
    [(len y, len x)] with [X[j, i] = x[i]] and [Y[j, i] = y[j]]; stacked
    and transposed they have shape [(len x, len y, 2)], so the flat list
    of pairs runs over [x] in its outer loop and over [y] in its inner
    loop.  The pair [(xi, yj)] becomes the complex number of real part
    [xi] and imaginary part [yj]. *)
Definition meshgrid_points (x y : list float) : list complex :=
  x ≫= λ xi, (λ yj, Complex xi yj) <$> y.

End Numpy.

(** ** The CPU path *)

Section Cpu.
Context `{FloatOps}.

(** The tuple passed to a worker:
    [(region_name, xmin, xmax, ymin, ymax, width, height, max_iter)]. *)
Definition region_args : Type :=
  string * float * float * float * float * Z * Z * Z.

Definition region_name (args : region_args) : string :=
  let '(name, _, _, _, _, _, _, _) := args in name.

(** *** [compute_mandelbrot_region] (lines 18-28), timing and printing
    left out. *)
Definition compute_mandelbrot_region (args : region_args) : result (grid Z) :=
  let '(region_name, xmin, xmax, ymin, ymax, width, height, max_iter) := args in
  x ← linspace xmin xmax width;
  y ← linspace ymin ymax height;
  let C := meshgrid_points x y in
  let count := (λ c, mandelbrot c max_iter) <$> C in
  reshape count height width.

(** The complex sample behind each cell of the array returned by
    [compute_mandelbrot_region]: the list [C] cut the way [count] is. *)
Definition region_samples (args : region_args) : result (grid complex) :=
  let '(region_name, xmin, xmax, ymin, ymax, width, height, max_iter) := args in
  x ← linspace xmin xmax width;
  y ← linspace ymin ymax height;
  reshape (meshgrid_points x y) height width.

(** The fields of [ZoomableMandelbrot] that [plot_mandelbrot] reads. *)
Record ZoomableMandelbrot : Type := {
  max_iter : Z;
  width : Z;
  height : Z;
  xmin : float;
  xmax : float;
  ymin : float;
  ymax : float
}.

(** Lines 82-91: the four quadrants, in the order they are written. *)
Definition quadrants (self : ZoomableMandelbrot) : list region_args :=
  let x_mid := ((xmin self + xmax self) / of_int 2)%F in
  let y_mid := ((ymin self + ymax self) / of_int 2)%F in
  [ ("Bottom-left"%string, xmin self, x_mid, ymin self, y_mid,
       width self / 2, height self / 2, max_iter self);
    ("Bottom-right"%string, x_mid, xmax self, ymin self, y_mid,
       width self / 2, height self / 2, max_iter self);
    ("Top-left"%string, xmin self, x_mid, y_mid, ymax self,
       width self / 2, height self / 2, max_iter self);
    ("Top-right"%string, x_mid, xmax self, y_mid, ymax self,
       width self / 2, height self / 2, max_iter self) ].

(** [regions[i]] for a non-negative [i]. *)
Definition getitem {A} (l : list A) (i : nat) : result A :=
  match l !! i with Some a => Ok a | None => Raise IndexError end.

(** Line 95: [regions[2], regions[1] = regions[1], regions[2]]. *)
Definition swap_regions (regions : list region_args) : result (list region_args) :=
  r1 ← getitem regions 1%nat;
  r2 ← getitem regions 2%nat;
  Ok (<[1%nat := r2]> (<[2%nat := r1]> regions)).

(** Lines 104-107: unpacking of the four results and the three
    [np.concatenate] calls. *)
Definition assemble {A} (results : list (grid A)) : result (grid A) :=
  match results with
  | [bottom_left; bottom_right; top_left; top_right] =>
      top ← concatenate_axis1 top_left top_right;
      bottom ← concatenate_axis1 bottom_left bottom_right;
      concatenate_axis0 bottom top
  | _ => Raise ValueError
  end.

(** *** [ZoomableMandelbrot.plot_mandelbrot] (lines 78-107), up to
    [final_result]; [executor.map] keeps the order of its inputs and
    re-raises a worker's exception. *)
Definition plot_mandelbrot (self : ZoomableMandelbrot) : result (grid Z) :=
  regions ← swap_regions (quadrants self);
  results ← mapM compute_mandelbrot_region regions;
  assemble results.

(** The complex sample behind each cell of [final_result]. *)
Definition plot_samples (self : ZoomableMandelbrot) : result (grid complex) :=
  regions ← swap_regions (quadrants self);
  samples ← mapM region_samples regions;
  assemble samples.




End Cpu.

(** ** The CUDA path *)

Section Gpu.
Context `{FloatOps}.

(** A thread of a two-dimensional launch. *)
Record thread : Type := {
  blockIdx : Z * Z;
  threadIdx : Z * Z
}.

(** [cuda.grid(2)]: the absolute position [(x, y)] of the thread. *)
Definition cuda_grid (blockDim : Z * Z) (t : thread) : Z * Z :=
  ((blockIdx t).1 * blockDim.1 + (threadIdx t).1,
   (blockIdx t).2 * blockDim.2 + (threadIdx t).2).

(** [image[row, column] = color] in device code, [image] being an
    [np.int32] array: the cell receives [to_int32 color].  An index outside
    the array is a memory fault ([IndexError]).  Thread positions are never
    negative, so negative indices are faults as well. *)
Definition image_store (image : grid Z) (row column : Z) (color : Z)
    : result (grid Z) :=
  if (row <? 0) || (column <? 0) then Raise IndexError
  else
    match image !! Z.to_nat row with
    | Some r =>
        if decide (Z.to_nat column < length r)%nat
        then Ok (<[Z.to_nat row := <[Z.to_nat column := to_int32 color]> r]> image)
        else Raise IndexError
    | None => Raise IndexError
    end.

(** The plane point of a pixel as the specification writes it:
    [re = xmin + col*(xmax-xmin)/width], [im = ymin + row*(ymax-ymin)/height]. *)
Definition spec_sample (xmin xmax ymin ymax : float) (width height : Z)
    (col row : Z) : complex :=
  Complex (xmin + of_int col * (xmax - xmin) / of_int width)%F
          (ymin + of_int row * (ymax - ymin) / of_int height)%F.

(** The count the CUDA path computes at the specification's sample of a
    pixel. *)
Definition pixel_color (xmin xmax ymin ymax : float) (width height max_iter : Z)
    (col row : Z) : Z :=
  mandelbrot_cuda (spec_sample xmin xmax ymin ymax width height col row) max_iter.

(** *** [mandelbrot_kernel] (lines 141-148), run by the thread [t]. *)
Definition mandelbrot_kernel (blockDim : Z * Z) (t : thread)
    (min_x max_x min_y max_y : float) (width height : Z) (image : grid Z)
    (max_iter : Z) : result (grid Z) :=
  let '(column, row) := cuda_grid blockDim t in
  if (column <? width) && (row <? height) then
    let x := (min_x + of_int column * (max_x - min_x) / of_int width)%F in
    let y := (min_y + of_int row * (max_y - min_y) / of_int height)%F in
    let color := mandelbrot_cuda (Complex x y) max_iter in
    image_store image row column color
  else Ok image.

(** The threads of a launch [kernel[blockspergrid, threadsperblock]],
    block after block. *)
Definition launch_threads (blockspergrid threadsperblock : Z * Z) : list thread :=
  by_ ← seqZ 0 blockspergrid.2;
  bx ← seqZ 0 blockspergrid.1;
  ty ← seqZ 0 threadsperblock.2;
  tx ← seqZ 0 threadsperblock.1;
  [ {| blockIdx := (bx, by_); threadIdx := (tx, ty) |} ].

(** Running the threads one after the other on the shared [image]; a
    fault in one thread aborts the launch.  (The device runs them in an
    unspecified order; [launch_order_irrelevant] shows that the order does
    not change the result.) *)
Fixpoint run_threads (kernel : thread → grid Z → result (grid Z))
    (ts : list thread) (image : grid Z) : result (grid Z) :=
  match ts with
  | [] => Ok image
  | t :: ts' => image' ← kernel t image; run_threads kernel ts' image'
  end.

(** Lines 152-155: the launch configuration. *)
Definition threadsperblock : Z * Z := (16, 16).

Definition blockspergrid (width height : Z) : Z * Z :=
  let blockspergrid_x := (width + (threadsperblock.1 - 1)) / threadsperblock.1 in
  let blockspergrid_y := (height + (threadsperblock.2 - 1)) / threadsperblock.2 in
  (blockspergrid_x, blockspergrid_y).

(** *** [compute_mandelbrot_gpu] (lines 150-163), timing and printing
    left out; [cuda.synchronize()] waits for all the threads. *)
Definition compute_mandelbrot_gpu (min_x max_x min_y max_y : float)
    (width height max_iter : Z) : result (grid Z) :=
  image ← zeros height width;
  run_threads
    (λ t image, mandelbrot_kernel threadsperblock t
                  min_x max_x min_y max_y width height image max_iter)
    (launch_threads (blockspergrid width height) threadsperblock) image.

End Gpu.

(** ** The quadrants of the CPU path, one by one *)

Section Quadrants.
Context `{FloatOps}.

(** [x_mid] and [y_mid] of lines 82-83. *)
Definition x_mid (self : ZoomableMandelbrot) : float :=
  ((xmin self + xmax self) / of_int 2)%F.

Definition y_mid (self : ZoomableMandelbrot) : float :=
  ((ymin self + ymax self) / of_int 2)%F.

(** The entry of the list of lines 86-91 for the left or right, bottom or
    top quadrant. *)
Definition quadrant (self : ZoomableMandelbrot) (right top : bool) : region_args :=
  ((if top then "Top" else "Bottom") +:+ "-" +:+ (if right then "right" else "left"),
   if right then x_mid self else xmin self,
   if right then xmax self else x_mid self,
   if top then y_mid self else ymin self,
   if top then ymax self else y_mid self,
   width self / 2, height self / 2, max_iter self).

(** The [x] coordinates the four workers sample, those of the left
    quadrants followed by those of the right ones, and the [y] coordinates,
    bottom then top. *)
Definition x_samples (self : ZoomableMandelbrot) : result (list float) :=
  left ← linspace (xmin self) (x_mid self) (width self / 2);
  right ← linspace (x_mid self) (xmax self) (width self / 2);
  Ok (left ++ right).

Definition y_samples (self : ZoomableMandelbrot) : result (list float) :=
  bottom ← linspace (ymin self) (y_mid self) (height self / 2);
  top ← linspace (y_mid self) (ymax self) (height self / 2);
  Ok (bottom ++ top).

End Quadrants.

(** ** The interactive viewer *)

(** [a < b] on Python floats, the comparison [sorted] uses. *)
Class FloatLt `{FloatOps} : Type := {
  flt : float → float → bool
}.

Section Viewer.
Context `{FloatLt}.

(** [patches.Rectangle]: anchor point, width and height. *)
Record Rectangle : Type := {
  rect_xy : float * float;
  rect_width : float;
  rect_height : float
}.

(** A mouse event: whether [event.inaxes] is [self.ax], and the data
    coordinates of the pointer (the handlers read them only in that case). *)
Record MouseEvent : Type := {
  inaxes : bool;
  xdata : float;
  ydata : float
}.

(** The mutable attributes of a [ZoomableMandelbrot] object. *)
Record ViewerState : Type := {
  view : ZoomableMandelbrot;
  press : option (float * float);
  rect : Rectangle
}.

(** What a handler asks of the canvas: nothing, [draw_idle()], or a call
    of [plot_mandelbrot], recorded with its [final_result]. *)
Inductive redraw : Type :=
  | NoRedraw
  | DrawIdle
  | Plot (final_result : result (grid Z)).

(** [sorted([a, b])]: the sort is stable, the second element moves to the
    front exactly when it is smaller than the first. *)
Definition sorted2 (a b : float) : float * float :=
  if flt b a then (b, a) else (a, b).

(** [__init__] (lines 31-46): the attributes it sets, then the first
    [plot_mandelbrot]. *)
Definition init (max_iter width height : Z) : ViewerState * redraw :=
  let self :=
    {| view := {| max_iter := max_iter; width := width; height := height;
                  xmin := of_int (-2); xmax := of_int 2;
                  ymin := of_int (-2); ymax := of_int 2 |};
       press := None;
       rect := {| rect_xy := (of_int 0, of_int 0);
                  rect_width := of_int 0; rect_height := of_int 0 |} |} in
  (self, Plot (plot_mandelbrot (view self))).

(** [on_press] (lines 48-54). *)
Definition on_press (self : ViewerState) (event : MouseEvent)
    : ViewerState * redraw :=
  if negb (inaxes event) then (self, NoRedraw)
  else
    ({| view := view self;
        press := Some (xdata event, ydata event);
        rect := {| rect_xy := (xdata event, ydata event);
                   rect_width := of_int 0; rect_height := of_int 0 |} |},
     NoRedraw).

(** [on_motion] (lines 56-64). *)
Definition on_motion (self : ViewerState) (event : MouseEvent)
    : ViewerState * redraw :=
  match press self with
  | None => (self, NoRedraw)
  | Some (xpress, ypress) =>
      if negb (inaxes event) then (self, NoRedraw)
      else
        let dx := (xdata event - xpress)%F in
        let dy := (ydata event - ypress)%F in
        ({| view := view self;
            press := press self;
            rect := {| rect_xy := rect_xy (rect self);
                       rect_width := dx; rect_height := dy |} |},
         DrawIdle)
  end.

(** [on_release] (lines 66-76). *)
Definition on_release (self : ViewerState) (event : MouseEvent)
    : ViewerState * redraw :=
  match press self with
  | None => (self, NoRedraw)
  | Some (xpress, ypress) =>
      if negb (inaxes event) then (self, NoRedraw)
      else
        let '(xrelease, yrelease) := (xdata event, ydata event) in
        let '(xmin', xmax') := sorted2 xpress xrelease in
        let '(ymin', ymax') := sorted2 ypress yrelease in
        let view' :=
          {| max_iter := max_iter (view self); width := width (view self);
             height := height (view self);
             xmin := xmin'; xmax := xmax'; ymin := ymin'; ymax := ymax' |} in
        ({| view := view';
            press := None;
            rect := {| rect_xy := rect_xy (rect self);
                       rect_width := of_int 0; rect_height := of_int 0 |} |},
         Plot (plot_mandelbrot view'))
  end.

(** The three events the constructor connects (lines 40-42). *)
Inductive MouseAction : Type :=
  | button_press_event (event : MouseEvent)
  | motion_notify_event (event : MouseEvent)
  | button_release_event (event : MouseEvent).

Definition dispatch (self : ViewerState) (a : MouseAction) : ViewerState * redraw :=
  match a with
  | button_press_event event => on_press self event
  | motion_notify_event event => on_motion self event
  | button_release_event event => on_release self event
  end.

(** The state after a sequence of events, and the redraws they caused, in
    order. *)
Fixpoint run (self : ViewerState) (actions : list MouseAction)
    : ViewerState * list redraw :=
  match actions with
  | [] => (self, [])
  | a :: actions' =>
      let '(self', r) := dispatch self a in
      let '(self'', rs) := run self' actions' in
      (self'', r :: rs)
  end.

(** [a < b] and [b < a] never hold together. *)
Definition flt_asymmetric : Prop :=
  ∀ a b : float, flt a b = true → flt b a = false.

End Viewer.

(** ** Exact rational arithmetic *)

Definition Qlt_bool (a b : Q) : bool :=
  (Qnum a * QDen b <? Qnum b * QDen a)%Z.

Definition Qhypot_le (x y r : Q) : bool :=
  Qle_bool 0 r && Qle_bool (x * x + y * y) (r * r).

Definition Qhypot_gt (x y r : Q) : bool :=
  Qlt_bool r 0 || Qlt_bool (r * r) (x * x + y * y).

#[export] Instance QFloat : FloatOps := {|
  float := Q;
  of_int := inject_Z;
  fadd x y := Qred (x + y);
  fsub x y := Qred (x - y);
  fmul x y := Qred (x * y);
  fdiv x y := Qred (x / y);
  feqb := Qeq_bool;
  hypot_le := Qhypot_le;
  hypot_gt := Qhypot_gt
|}.

#[export] Instance QFloatLt : FloatLt := {| flt := Qlt_bool |}.

(** ** Rational arithmetic with a NaN *)






(** ** Concrete inputs *)

(** A complex number with rational parts, and the points [-1 - 1j] and
    [10 + 10j]. *)
Definition Qcomplex (x y : Q) : complex (H := QFloat) := Complex x y.

Definition c_near : complex (H := QFloat) := Qcomplex (-1) (-1).
Definition c_far : complex (H := QFloat) := Qcomplex 10 10.

(** The default viewport [-2, 2] x [-2, 2] at 2 x 2 and 4 x 4 pixels. *)
Definition view_2x2 : ZoomableMandelbrot (H := QFloat) :=
  {| max_iter := 10; width := 2; height := 2;
     xmin := (-2)%Q; xmax := 2%Q; ymin := (-2)%Q; ymax := 2%Q |}.

Definition view_4x4 : ZoomableMandelbrot (H := QFloat) :=
  {| max_iter := 10; width := 4; height := 4;
     xmin := (-2)%Q; xmax := 2%Q; ymin := (-2)%Q; ymax := 2%Q |}.

(** A viewport with [xmin = xmax] and [ymin > ymax]. *)
Definition view_degenerate : ZoomableMandelbrot (H := QFloat) :=
  {| max_iter := 10; width := 2; height := 2;
     xmin := 1%Q; xmax := 1%Q; ymin := 3%Q; ymax := 2%Q |}.

(** Pointer positions inside and outside the axes, the viewer as the
    constructor leaves it at 4 x 4 pixels, and two threads of one block. *)
Definition pointer_a : MouseEvent (H := QFloat) :=
  {| inaxes := true; xdata := 1%Q; ydata := 1%Q |}.

Definition pointer_b : MouseEvent (H := QFloat) :=
  {| inaxes := true; xdata := (-1)%Q; ydata := 0%Q |}.

Definition pointer_out : MouseEvent (H := QFloat) :=
  {| inaxes := false; xdata := 0%Q; ydata := 0%Q |}.

Definition viewer_4x4 : ViewerState (H := QFloat) := (init 10 4 4).1.

Definition thread_00 : thread :=
  {| blockIdx := (0, 0); threadIdx := (0, 0) |}.

Definition thread_10 : thread :=
  {| blockIdx := (0, 0); threadIdx := (1, 0) |}.

(** ** Laws of the arithmetic that individual theorems assume *)

Section Laws.
Context `{FloatOps}.

(** [abs(z) > 2] is the negation of [abs(z) <= 2] (in IEEE arithmetic:
    [abs(z)] is not a NaN). *)
Definition ordered_at_2 (z : complex) : Prop :=
  cabs_gt z (of_int 2) = negb (cabs_le z (of_int 2)).

(** The comparison with the radius is total at every point the loops
    test: at [z = 0] and at each point of the orbit of [c] reached through
    points of magnitude at most 2.  (In IEEE arithmetic this holds for
    every finite [c]: such a point is the image of a point of magnitude at
    most 2, so it is finite or infinite, never a NaN.) *)
Definition visited_ordered (c : complex) : Prop :=
  ∀ n : nat,
    (∀ m : nat, (m < n)%nat → cabs_le (orbit c m) (of_int 2) = true) →
    ordered_at_2 (orbit c n).

(** The comparison with the radius is total everywhere. *)
Definition total_order_at_2 : Prop := ∀ z : complex, ordered_at_2 z.

(** [abs(complex(0, 0)) <= 2] holds and [abs(complex(0, 0)) > 2] does not. *)
Definition zero_inside : Prop := cabs_le czero (of_int 2) = true.
Definition zero_not_outside : Prop := cabs_gt czero (of_int 2) = false.

(** [0 * 0 + 0] is [0]. *)
Definition zero_fixed : Prop := step czero czero = czero.

(** [0 * 0 + c] has the magnitude of [c]. *)
Definition first_step_exact : Prop :=
  ∀ c : complex, cabs_gt (step c czero) (of_int 2) = cabs_gt c (of_int 2).

End Laws.

(** * Properties *)

(** ** The code evaluated on concrete inputs *)

Example mandelbrot_origin : mandelbrot (Qcomplex 0 0) 10 = 10.
Proof. vm_compute. reflexivity. Qed.

Example mandelbrot_far : mandelbrot c_far 50 = 1.
Proof. vm_compute. reflexivity. Qed.

Example mandelbrot_cuda_far : mandelbrot_cuda c_far 50 = 1.
Proof. vm_compute. reflexivity. Qed.

Example mandelbrot_near : mandelbrot c_near 10 = 3.
Proof. vm_compute. reflexivity. Qed.

Example mandelbrot_cuda_near : mandelbrot_cuda c_near 10 = 3.
Proof. vm_compute. reflexivity. Qed.

Example plot_mandelbrot_4x4 :
  plot_mandelbrot view_4x4
  = Ok [[1; 10; 10; 1]; [2; 10; 10; 2]; [2; 10; 10; 2]; [1; 2; 2; 1]].
Proof. vm_compute. reflexivity. Qed.

Example compute_mandelbrot_gpu_4x4 :
  compute_mandelbrot_gpu (-2)%Q 2%Q (-2)%Q 2%Q 4 4 10
  = Ok [[1; 1; 2; 1]; [1; 3; 10; 2]; [10; 10; 10; 3]; [1; 3; 10; 2]].
Proof. vm_compute. reflexivity. Qed.

(** ** The rational instance satisfies the laws *)

Lemma Qlt_bool_negb_le (a b : Q) : Qlt_bool a b = negb (Qle_bool b a).
Proof. unfold Qlt_bool, Qle_bool. apply Z.ltb_antisym. Qed.

Lemma Qlt_bool_iff (a b : Q) : Qlt_bool a b = true ↔ (a < b)%Q.
Proof. unfold Qlt_bool, Qlt. apply Z.ltb_lt. Qed.

Lemma Qhypot_gt_negb_le (x y r : Q) : Qhypot_gt x y r = negb (Qhypot_le x y r).
Proof.
  unfold Qhypot_gt, Qhypot_le.
  rewrite !Qlt_bool_negb_le, negb_andb. reflexivity.
Qed.

Lemma QFloat_total_order : total_order_at_2 (H := QFloat).
Proof. intros z. apply Qhypot_gt_negb_le. Qed.

Lemma QFloat_visited_ordered (c : complex (H := QFloat)) : visited_ordered c.
Proof. intros n _. apply QFloat_total_order. Qed.

Lemma QFloat_zero_inside : zero_inside (H := QFloat).
Proof. reflexivity. Qed.

Lemma QFloat_zero_not_outside : zero_not_outside (H := QFloat).
Proof. reflexivity. Qed.

Lemma QFloat_zero_fixed : zero_fixed (H := QFloat).
Proof. reflexivity. Qed.

Lemma Qhypot_gt_proper (x x' y y' r : Q) :
  (x == x')%Q → (y == y')%Q → Qhypot_gt x y r = Qhypot_gt x' y' r.
Proof.
  intros Hx Hy. unfold Qhypot_gt. f_equal.
  apply eq_true_iff_eq. rewrite !Qlt_bool_iff, Hx, Hy. reflexivity.
Qed.

Lemma QFloat_first_step_exact : first_step_exact (H := QFloat).
Proof.
  intros [x y]. unfold cabs_gt, step, cadd, cmul; simpl.
  apply Qhypot_gt_proper; rewrite !Qred_correct; ring.
Qed.

(** ** The two escape evaluators *)

Section EvaluatorFacts.
Context `{FloatOps}.
Implicit Types (c z : complex) (n max_iter : Z).

Lemma iter_step_shift c z (k : nat) :
  Nat.iter k (step c) (step c z) = Nat.iter (S k) (step c) z.
Proof. induction k as [|k IH]; simpl in *; congruence. Qed.

(** The fuel [mandelbrot] passes is enough: the fuelled loop computes the
    result of the unbounded [while] loop. *)
Lemma mandelbrot_while_run fuel c max_iter z n :
  (Z.to_nat (max_iter - n) ≤ fuel)%nat →
  while_run c max_iter z n (mandelbrot_while fuel c max_iter z n).
Proof.
  revert z n. induction fuel as [|fuel IH]; intros z n Hfuel; simpl.
  - destruct (cabs_le z (of_int 2) && (n <? max_iter)) eqn:Hcond.
    + apply andb_prop in Hcond as [_ Hlt]. apply Z.ltb_lt in Hlt. lia.
    + by apply while_exit.
  - destruct (cabs_le z (of_int 2) && (n <? max_iter)) eqn:Hcond.
    + apply while_iter; [done|]. apply IH.
      apply andb_prop in Hcond as [_ Hlt]. apply Z.ltb_lt in Hlt. lia.
    + by apply while_exit.
Qed.

Lemma while_run_functional c max_iter z n r1 r2 :
  while_run c max_iter z n r1 → while_run c max_iter z n r2 → r1 = r2.
Proof.
  intros Hrun. revert r2.
  induction Hrun as [z n Hc|z n r Hc Hrun IH]; intros r2 Hrun2.
  - inversion Hrun2; subst; [done | congruence].
  - inversion Hrun2; subst; [congruence | by apply IH].
Qed.

(** What the [while] loop has established when it exits. *)
Lemma mandelbrot_while_spec fuel c max_iter z n :
  n ≤ max_iter →
  (Z.to_nat (max_iter - n) ≤ fuel)%nat →
  ∃ k : nat,
    mandelbrot_while fuel c max_iter z n = n + Z.of_nat k
    ∧ n + Z.of_nat k ≤ max_iter
    ∧ (∀ j : nat, (j < k)%nat →
         cabs_le (Nat.iter j (step c) z) (of_int 2) = true)
    ∧ (n + Z.of_nat k < max_iter →
         cabs_le (Nat.iter k (step c) z) (of_int 2) = false).
Proof.
  revert z n. induction fuel as [|fuel IH]; intros z n Hle Hfuel; simpl.
  - exists 0%nat. assert (n = max_iter) as -> by lia.
    rewrite Z.ltb_irrefl, andb_false_r. repeat split; try lia.
  - destruct (cabs_le z (of_int 2)) eqn:Hz; simpl.
    + destruct (n <? max_iter) eqn:Hlt.
      * apply Z.ltb_lt in Hlt.
        destruct (IH (step c z) (n + 1)) as (k & Hr & Hk & Hin & Hout);
          [lia | lia |].
        exists (S k). rewrite Hr. repeat split; try lia.
        -- intros [|j] Hj; [done|]. rewrite <- iter_step_shift. apply Hin. lia.
        -- intros Hlt'. rewrite <- iter_step_shift. apply Hout. lia.
      * apply Z.ltb_ge in Hlt. exists 0%nat. repeat split; try lia.
    + exists 0%nat. repeat split; try lia. by intros _.
Qed.

(** What the [for] loop has established when it returns. *)
Lemma mandelbrot_cuda_for_spec (len : nat) c max_iter z n :
  n + Z.of_nat len = max_iter →
  ∃ k : nat,
    mandelbrot_cuda_for (seqZ n (Z.of_nat len)) c max_iter z = n + Z.of_nat k
    ∧ (k ≤ len)%nat
    ∧ (∀ j : nat, (j < k)%nat →
         cabs_gt (Nat.iter j (step c) z) (of_int 2) = false)
    ∧ ((k < len)%nat →
         cabs_gt (Nat.iter k (step c) z) (of_int 2) = true).
Proof.
  revert z n. induction len as [|len IH]; intros z n Hlen.
  - exists 0%nat. simpl. repeat split; lia.
  - rewrite seqZ_cons by lia. simpl.
    destruct (cabs_gt z (of_int 2)) eqn:Hz.
    + exists 0%nat. repeat split; try lia. by intros _.
    + replace (Z.pred (Z.of_nat (S len))) with (Z.of_nat len) by lia.
      destruct (IH (step c z) (Z.succ n)) as (k & Hr & Hk & Hin & Hout); [lia|].
      exists (S k). rewrite Hr. repeat split; try lia.
      * intros [|j] Hj; [done|]. rewrite <- iter_step_shift. apply Hin. lia.
      * intros Hlt. rewrite <- iter_step_shift. apply Hout. lia.
Qed.

(** The two loops run in lock step, as long as the comparison is total
    at the points they test. *)
Lemma mandelbrot_while_cuda_for (len : nat) c max_iter z n :
  (∀ k : nat,
     (∀ j : nat, (j < k)%nat →
        cabs_le (Nat.iter j (step c) z) (of_int 2) = true) →
     ordered_at_2 (Nat.iter k (step c) z)) →
  n + Z.of_nat len = max_iter →
  mandelbrot_while len c max_iter z n
  = mandelbrot_cuda_for (seqZ n (Z.of_nat len)) c max_iter z.
Proof.
  revert z n. induction len as [|len IH]; intros z n Hord Hlen.
  - simpl. assert (n = max_iter) as -> by lia.
    by rewrite Z.ltb_irrefl, andb_false_r.
  - rewrite seqZ_cons by lia. simpl.
    rewrite (Hord 0%nat) by (intros j Hj; lia). simpl.
    assert ((n <? max_iter) = true) as -> by (apply Z.ltb_lt; lia).
    rewrite andb_true_r.
    destruct (cabs_le z (of_int 2)) eqn:Hz; simpl; [|done].
    replace (Z.pred (Z.of_nat (S len))) with (Z.of_nat len) by lia.
    rewrite <- (IH (step c z) (Z.succ n)); [done| |lia].
    intros k Hk. rewrite iter_step_shift. apply Hord.
    intros [|j] Hj; [done|]. rewrite <- iter_step_shift. apply Hk. lia.
Qed.

(** The CPU and the CUDA evaluator agree for every [max_iter >= 0]. *)
Lemma mandelbrot_cuda_agrees c max_iter :
  visited_ordered c → 0 ≤ max_iter →
  mandelbrot c max_iter = mandelbrot_cuda c max_iter.
Proof.
  intros Hord Hpos. unfold mandelbrot, mandelbrot_cuda.
  rewrite <- (Z2Nat.id max_iter) at 3 by done.
  apply mandelbrot_while_cuda_for; [exact Hord | lia].
Qed.


(** C2: for a positive [max_iter], [mandelbrot c max_iter] is the smallest
    [n] in [[0, max_iter]] such that [|z| > 2] after [n] steps of
    [z <- z * z + c] from [z = 0], and it is [max_iter] when there is no
    such [n]. *)
Theorem mandelbrot_least_escape c max_iter :
  visited_ordered c → 0 < max_iter →
  escape_count_spec c max_iter (mandelbrot c max_iter).
Proof.
  intros Hord Hpos. unfold escape_count_spec, mandelbrot.
  destruct (mandelbrot_while_spec (Z.to_nat max_iter) c max_iter czero 0)
    as (k & Hr & Hk & Hin & Hout); [lia..|].
  rewrite Z.add_0_l in Hr, Hk, Hout. rewrite Hr.
  change (∀ j : nat, (j < k)%nat → cabs_le (orbit c j) (of_int 2) = true) in Hin.
  change (Z.of_nat k < max_iter → cabs_le (orbit c k) (of_int 2) = false) in Hout.
  assert (Hvisited : ∀ m : nat, (m ≤ k)%nat → ordered_at_2 (orbit c m)).
  { intros m Hm. apply Hord. intros j Hj. apply Hin. lia. }
  assert (Hbelow : ∀ m : nat, Z.of_nat m < Z.of_nat k →
            cabs_gt (orbit c m) (of_int 2) = false).
  { intros m Hm. rewrite Hvisited by lia. rewrite Hin by lia. done. }
  split; [lia|]. split; [done|]. split.
  - intros (n & Hn & Hesc). rewrite Nat2Z.id.
    destruct (decide (Z.of_nat k < max_iter)) as [Hlt|Hge].
    + rewrite Hvisited by lia. rewrite Hout by done. done.
    + destruct (decide (n < k)%nat) as [Hnk|Hnk].
      * rewrite Hbelow in Hesc by lia. done.
      * assert (n = k) as -> by lia. done.
  - intros Hnone.
    destruct (decide (Z.of_nat k < max_iter)) as [Hlt|Hge]; [|lia].
    specialize (Hnone k). rewrite Hvisited in Hnone by lia.
    rewrite Hout in Hnone by done. simpl in Hnone.
    discriminate Hnone. lia.
Qed.

(** C3, as the code has it: for every [c] with [|c| > 2] and every
    positive [max_iter] both evaluators return 1, not 0: the test is made
    on [z], which is 0 on entry, and [c] is first seen after one update. *)
Theorem mandelbrot_outside_radius_is_1 c max_iter :
  visited_ordered c → zero_inside → first_step_exact →
  0 < max_iter →
  cabs_gt c (of_int 2) = true →
  mandelbrot c max_iter = 1 ∧ mandelbrot_cuda c max_iter = 1.
Proof.
  intros Hord Hzero Hfirst Hpos Hc.
  assert (Hcpu : mandelbrot c max_iter = 1).
  { unfold mandelbrot.
    destruct (Z.to_nat max_iter) as [|fuel] eqn:Hfuel; [lia|]. simpl.
    rewrite Hzero. assert ((0 <? max_iter) = true) as -> by (apply Z.ltb_lt; lia).
    simpl. pose proof (Hfirst c) as Hstep.
    rewrite Hc, (Hord 1%nat) in Hstep
      by (intros [|m] Hm; [exact Hzero | lia]).
    apply negb_true_iff in Hstep. simpl in Hstep.
    destruct fuel; simpl; by rewrite Hstep. }
  split; [done|]. rewrite <- mandelbrot_cuda_agrees by (done || lia). done.
Qed.

Lemma mandelbrot_while_zero fuel max_iter n :
  zero_inside → zero_fixed →
  n ≤ max_iter → fuel = Z.to_nat (max_iter - n) →
  mandelbrot_while fuel czero max_iter czero n = max_iter.
Proof.
  intros Hzero Hfix. revert n.
  induction fuel as [|fuel IH]; intros n Hle Hfuel; simpl; rewrite Hzero; simpl.
  - assert (n = max_iter) as -> by lia. by rewrite Z.ltb_irrefl.
  - assert ((n <? max_iter) = true) as -> by (apply Z.ltb_lt; lia).
    rewrite Hfix. apply IH; lia.
Qed.

(** C8: for every positive [max_iter], [mandelbrot] applied to [c = 0]
    returns [max_iter]: the origin never escapes. *)
Theorem mandelbrot_origin_never_escapes max_iter :
  zero_inside → zero_fixed → 0 < max_iter →
  mandelbrot czero max_iter = max_iter.
Proof.
  intros Hzero Hfix Hpos. unfold mandelbrot.
  apply mandelbrot_while_zero; [done | done | lia | lia].
Qed.

(** C10: for every [c] and every [max_iter >= 1] the evaluators terminate
    with a count [n] such that [1 <= n <= max_iter]: [z] starts at 0 and
    [|0| <= 2], so one iteration is always performed. *)
Theorem mandelbrot_count_bounds c max_iter :
  zero_inside → zero_not_outside → 1 ≤ max_iter →
  while_run c max_iter czero 0 (mandelbrot c max_iter)
  ∧ 1 ≤ mandelbrot c max_iter ≤ max_iter
  ∧ 1 ≤ mandelbrot_cuda c max_iter ≤ max_iter.
Proof.
  intros Hin Hout Hpos. split; [|split].
  - apply mandelbrot_while_run. lia.
  - unfold mandelbrot.
    destruct (mandelbrot_while_spec (Z.to_nat max_iter) c max_iter czero 0)
      as (k & Hr & Hk & _ & Hexit); [lia..|].
    rewrite Hr. destruct k as [|k]; [|lia].
    simpl in Hexit. rewrite Hin in Hexit. discriminate Hexit. lia.
  - unfold mandelbrot_cuda.
    destruct (mandelbrot_cuda_for_spec (Z.to_nat max_iter) c max_iter czero 0)
      as (k & Hr & Hk & _ & Hexit); [lia|].
    rewrite Z2Nat.id in Hr by lia.
    rewrite Hr. destruct k as [|k]; [|lia].
    simpl in Hexit. rewrite Hout in Hexit. discriminate Hexit. lia.
Qed.

Lemma mandelbrot_range (c : complex) (max_iter : Z) :
  0 ≤ max_iter → 0 ≤ mandelbrot c max_iter ≤ max_iter.
Proof.
  intros Hmi. unfold mandelbrot.
  destruct (mandelbrot_while_spec (Z.to_nat max_iter) c max_iter czero 0)
    as (k & -> & Hk & _); lia.
Qed.

Lemma mandelbrot_cuda_range (c : complex) (max_iter : Z) :
  0 ≤ max_iter → 0 ≤ mandelbrot_cuda c max_iter ≤ max_iter.
Proof.
  intros Hmi. unfold mandelbrot_cuda.
  destruct (mandelbrot_cuda_for_spec (Z.to_nat max_iter) c max_iter czero 0)
    as (k & Hr & Hk & _); [lia|].
  rewrite Z2Nat.id in Hr by lia. rewrite Hr. lia.
Qed.

(** For a bound that fits in 32 bits the count of the CUDA evaluator fits
    as well: it lies between 0 and [max_iter]. *)
Lemma mandelbrot_cuda_between (c : complex) (max_iter : Z) :
  Z.min 0 max_iter ≤ mandelbrot_cuda c max_iter ≤ Z.max 0 max_iter.
Proof.
  destruct (decide (0 ≤ max_iter)) as [Hpos|Hneg].
  - pose proof (mandelbrot_cuda_range c max_iter Hpos). lia.
  - unfold mandelbrot_cuda. rewrite seqZ_nil by lia. simpl. lia.
Qed.

End EvaluatorFacts.

(** ** Integers of 32 bits *)

Lemma to_int32_range (v : Z) : - 2 ^ 31 ≤ to_int32 v < 2 ^ 31.
Proof. unfold to_int32. pose proof (Z.mod_pos_bound (v + 2 ^ 31) (2 ^ 32)). lia. Qed.

Lemma to_int32_id (v : Z) : - 2 ^ 31 ≤ v < 2 ^ 31 → to_int32 v = v.
Proof. intros Hv. unfold to_int32. rewrite Z.mod_small by lia. lia. Qed.


(** ** Arrays: shapes, cells and element-wise maps *)

Section GridFacts.
Context {A : Type}.
Implicit Types (l : list A) (a b : grid A).

Lemma length_chunks rows columns l : length (chunks rows columns l) = rows.
Proof.
  revert l. induction rows as [|rows IH]; intros l; simpl; [done|].
  by rewrite IH.
Qed.

Lemma lookup_chunks rows columns l (i : nat) :
  (i < rows)%nat →
  chunks rows columns l !! i = Some (take columns (drop (i * columns) l)).
Proof.
  revert l i. induction rows as [|rows IH]; intros l i Hi; [lia|].
  destruct i as [|i]; simpl; [done|].
  rewrite IH by lia. by rewrite drop_drop.
Qed.

(** Row-major indexing: [l.reshape((rows, columns))[i, j]] is
    [l[i * columns + j]]. *)
Lemma cell_chunks rows columns l (i j : nat) :
  (i < rows)%nat → (j < columns)%nat →
  cell (chunks rows columns l) i j = l !! (i * columns + j)%nat.
Proof.
  intros Hi Hj. unfold cell. rewrite lookup_chunks by done. simpl.
  rewrite lookup_take_lt by done. apply lookup_drop.
Qed.

Lemma chunks_has_shape rows columns l :
  length l = (rows * columns)%nat → has_shape (chunks rows columns l) rows columns.
Proof.
  intros Hlen. split; [apply length_chunks|].
  revert l Hlen. induction rows as [|rows IH]; intros l Hlen; simpl; constructor.
  - rewrite length_take. simpl in Hlen. lia.
  - apply IH. rewrite length_drop. simpl in Hlen. lia.
Qed.

Lemma reshape_Ok l (rows columns : Z) :
  0 ≤ rows → 0 ≤ columns →
  length l = (Z.to_nat rows * Z.to_nat columns)%nat →
  reshape l rows columns = Ok (chunks (Z.to_nat rows) (Z.to_nat columns) l).
Proof.
  intros Hr Hc Hlen. unfold reshape.
  assert ((rows <? 0) = false) as -> by (apply Z.ltb_ge; lia).
  assert ((columns <? 0) = false) as -> by (apply Z.ltb_ge; lia).
  simpl. rewrite Hlen.
  assert ((Z.of_nat (Z.to_nat rows * Z.to_nat columns) =? rows * columns) = true)
    as -> by (apply Z.eqb_eq; lia).
  done.
Qed.

Lemma cell_in_shape a rows columns (i j : nat) x :
  has_shape a rows columns → cell a i j = Some x →
  (i < rows)%nat ∧ (j < columns)%nat.
Proof.
  intros [Hrows Hcols] Hcell. unfold cell in Hcell.
  destruct (a !! i) as [r|] eqn:Hr; simpl in Hcell; [|done].
  split.
  - rewrite <- Hrows. by eapply lookup_lt_Some.
  - rewrite <- (Forall_lookup_1 _ _ _ _ Hcols Hr). by eapply lookup_lt_Some.
Qed.

(** Two arrays of the same shape with the same cells are equal. *)
Lemma grid_ext a b rows columns :
  has_shape a rows columns → has_shape b rows columns →
  (∀ i j : nat, (i < rows)%nat → (j < columns)%nat → cell a i j = cell b i j) →
  a = b.
Proof.
  intros [Ha Hca] [Hb Hcb] Hcells. apply list_eq. intros i.
  destruct (decide (i < rows)%nat) as [Hi|Hi].
  - destruct (lookup_lt_is_Some_2 a i) as [ra Hra]; [lia|].
    destruct (lookup_lt_is_Some_2 b i) as [rb Hrb]; [lia|].
    rewrite Hra, Hrb. f_equal. apply list_eq. intros j.
    pose proof (Forall_lookup_1 _ _ _ _ Hca Hra) as Hla.
    pose proof (Forall_lookup_1 _ _ _ _ Hcb Hrb) as Hlb. simpl in Hla, Hlb.
    destruct (decide (j < columns)%nat) as [Hj|Hj].
    + specialize (Hcells i j Hi Hj). unfold cell in Hcells.
      by rewrite Hra, Hrb in Hcells.
    + rewrite !lookup_ge_None_2 by lia. done.
  - rewrite !lookup_ge_None_2 by lia. done.
Qed.

Lemma concatenate_axis1_Ok a b rows c1 c2 :
  has_shape a rows c1 → has_shape b rows c2 →
  concatenate_axis1 a b = Ok (zip_with app a b)
  ∧ has_shape (zip_with app a b) rows (c1 + c2).
Proof.
  intros [Ha Hca] [Hb Hcb]. unfold concatenate_axis1.
  rewrite decide_True by congruence. split; [done|]. split.
  - rewrite length_zip_with. lia.
  - apply Forall_lookup_2. intros i r Hr.
    apply lookup_zip_with_Some in Hr as (ra & rb & -> & Hra & Hrb).
    rewrite length_app.
    rewrite (Forall_lookup_1 _ _ _ _ Hca Hra), (Forall_lookup_1 _ _ _ _ Hcb Hrb).
    done.
Qed.

Lemma concatenate_axis0_Ok a b r1 r2 columns :
  has_shape a r1 columns → has_shape b r2 columns →
  concatenate_axis0 a b = Ok (a ++ b) ∧ has_shape (a ++ b) (r1 + r2) columns.
Proof.
  intros [Ha Hca] [Hb Hcb]. split.
  - unfold concatenate_axis0. destruct a as [|ra a], b as [|rb b]; try done.
    rewrite decide_True; [done|].
    apply Forall_cons in Hca as [-> _]. by apply Forall_cons in Hcb as [-> _].
  - split; [rewrite length_app; lia | by apply Forall_app_2].
Qed.

End GridFacts.

Section GridMap.
Context {A B : Type} (f : A → B).
Implicit Types (l : list A) (a b : grid A).

Lemma cell_fmap a (i j : nat) : cell (grid_map f a) i j = f <$> cell a i j.
Proof.
  unfold cell, grid_map. rewrite list_lookup_fmap.
  destruct (a !! i) as [r|]; simpl; [apply list_lookup_fmap | done].
Qed.

Lemma has_shape_fmap a rows columns :
  has_shape a rows columns → has_shape (grid_map f a) rows columns.
Proof.
  intros [Hr Hc]. unfold grid_map. split; [by rewrite length_fmap|].
  apply Forall_fmap. eapply Forall_impl; [exact Hc|].
  intros r Hlen. simpl. by rewrite length_fmap.
Qed.

Lemma chunks_fmap rows columns l :
  chunks rows columns (f <$> l) = grid_map f (chunks rows columns l).
Proof.
  unfold grid_map. revert l. induction rows as [|rows IH]; intros l; simpl; [done|].
  by rewrite <- fmap_take, <- fmap_drop, IH.
Qed.

Lemma reshape_fmap l (rows columns : Z) :
  reshape (f <$> l) rows columns = grid_map f <$> reshape l rows columns.
Proof.
  unfold reshape. rewrite length_fmap.
  destruct ((rows <? 0) || (columns <? 0)); [done|].
  destruct (Z.of_nat (length l) =? rows * columns); [|done].
  simpl. by rewrite chunks_fmap.
Qed.

Lemma zip_with_app_fmap a b :
  zip_with app (grid_map f a) (grid_map f b) = grid_map f (zip_with app a b).
Proof.
  unfold grid_map. revert b. induction a as [|ra a IH]; intros [|rb b]; simpl; [done..|].
  by rewrite IH, fmap_app.
Qed.

Lemma concatenate_axis1_fmap a b :
  concatenate_axis1 (grid_map f a) (grid_map f b)
  = grid_map f <$> concatenate_axis1 a b.
Proof.
  assert (Hlen : ∀ g : grid A, length (grid_map f g) = length g)
    by (intros g; apply length_fmap).
  unfold concatenate_axis1.
  destruct (decide (length a = length b)) as [Heq|Hne].
  - rewrite decide_True by (by rewrite !Hlen). simpl.
    by rewrite zip_with_app_fmap.
  - by rewrite decide_False by (by rewrite !Hlen).
Qed.

Lemma concatenate_axis0_fmap a b :
  concatenate_axis0 (grid_map f a) (grid_map f b)
  = grid_map f <$> concatenate_axis0 a b.
Proof.
  unfold concatenate_axis0, grid_map.
  destruct a as [|ra a], b as [|rb b]; simpl; rewrite ?fmap_app; try done.
  destruct (decide (length ra = length rb)) as [Heq|Hne].
  - rewrite decide_True by (by rewrite !length_fmap). simpl.
    by rewrite fmap_app.
  - by rewrite decide_False by (by rewrite !length_fmap).
Qed.

End GridMap.

(** ** The CPU path *)

Section CpuFacts.
Context `{FloatOps}.

Lemma linspace_Ok (start stop : float) (num : Z) :
  0 ≤ num →
  ∃ l, linspace start stop num = Ok l ∧ length l = Z.to_nat num.
Proof.
  intros Hnum. unfold linspace.
  assert ((num <? 0) = false) as -> by (apply Z.ltb_ge; lia).
  eexists. split; [reflexivity|].
  assert (∀ l : list float,
    length (if 1 <? num then <[Z.to_nat (num - 1) := stop]> l else l) = length l)
    as -> by (intros l; destruct (1 <? num); [apply length_insert | done]).
  rewrite length_fmap.
  destruct (0 <? num - 1); [destruct (feqb _ _)|];
    by rewrite !length_fmap, length_seqZ.
Qed.

(** [np.linspace(start, stop, 1)] is [[start]] (computed as
    [0 * delta + start]). *)
Lemma linspace_single (start stop : float) :
  linspace start stop 1 = Ok [(of_int 0 * (stop - start) + start)%F].
Proof. reflexivity. Qed.

(** For [num > 1] the last sample is [stop] itself. *)
Lemma linspace_last (start stop : float) (num : Z) l :
  1 < num → linspace start stop num = Ok l →
  l !! Z.to_nat (num - 1) = Some stop.
Proof.
  intros Hnum Hl. destruct (linspace_Ok start stop num) as (l' & Hl' & Hlen); [lia|].
  assert (l' = l) as -> by congruence. clear Hl'.
  unfold linspace in Hl.
  assert ((num <? 0) = false) as Hneg by (apply Z.ltb_ge; lia).
  assert ((1 <? num) = true) as Hone by (apply Z.ltb_lt; lia).
  rewrite Hneg, Hone in Hl. injection Hl as <-.
  apply list_lookup_insert_eq.
  rewrite length_insert in Hlen. lia.
Qed.

(** For [num > 1] the sample [i < num - 1] is [i * step + start] with
    [step = (stop - start) / (num - 1)]: the interval is cut in [num - 1]
    parts, not in [num]. *)
Lemma linspace_inner (start stop : float) (num i : Z) l :
  1 < num → 0 ≤ i < num - 1 →
  linspace start stop num = Ok l →
  l !! Z.to_nat i
  = Some (let step := ((stop - start) / of_int (num - 1))%F in
          if feqb step (of_int 0)
          then (of_int i / of_int (num - 1) * (stop - start) + start)%F
          else (of_int i * step + start)%F).
Proof.
  intros Hnum Hi Hl. unfold linspace in Hl.
  assert ((num <? 0) = false) as Hneg by (apply Z.ltb_ge; lia).
  assert ((1 <? num) = true) as Hone by (apply Z.ltb_lt; lia).
  assert ((0 <? num - 1) = true) as Hdiv by (apply Z.ltb_lt; lia).
  rewrite Hneg, Hone, Hdiv in Hl. injection Hl as <-.
  rewrite list_lookup_insert_ne by lia. simpl.
  destruct (feqb _ _); rewrite !list_lookup_fmap, lookup_seqZ_lt by lia;
    simpl; by rewrite Z2Nat.id by lia.
Qed.

Lemma length_meshgrid_points (x y : list float) :
  length (meshgrid_points x y) = (length x * length y)%nat.
Proof.
  unfold meshgrid_points. induction x as [|xi x IH]; [done|].
  rewrite bind_cons, length_app, length_fmap, IH. simpl. lia.
Qed.

(** The flat list of points runs over [x] in its outer loop. *)
Lemma lookup_meshgrid_points (x y : list float) (i j : nat) xi yj :
  x !! i = Some xi → y !! j = Some yj →
  meshgrid_points x y !! (i * length y + j)%nat = Some (Complex xi yj).
Proof.
  unfold meshgrid_points. revert i.
  induction x as [|x0 x IH]; intros i Hx Hy; [done|].
  rewrite bind_cons. destruct i as [|i]; simpl in Hx |- *.
  - injection Hx as ->. rewrite lookup_app_l.
    + by rewrite list_lookup_fmap, Hy.
    + rewrite length_fmap. by eapply lookup_lt_Some.
  - rewrite lookup_app_r by (rewrite length_fmap; lia).
    rewrite length_fmap.
    replace (length y + i * length y + j - length y)%nat
      with (i * length y + j)%nat by lia.
    by apply IH.
Qed.

Lemma region_samples_Ok name (xmin xmax ymin ymax : float) (width height max_iter : Z) :
  0 ≤ width → 0 ≤ height →
  ∃ xs ys,
    linspace xmin xmax width = Ok xs ∧ length xs = Z.to_nat width
    ∧ linspace ymin ymax height = Ok ys ∧ length ys = Z.to_nat height
    ∧ region_samples (name, xmin, xmax, ymin, ymax, width, height, max_iter)
      = Ok (chunks (Z.to_nat height) (Z.to_nat width) (meshgrid_points xs ys)).
Proof.
  intros Hw Hh.
  destruct (linspace_Ok xmin xmax width Hw) as (xs & Hxs & Hlx).
  destruct (linspace_Ok ymin ymax height Hh) as (ys & Hys & Hly).
  exists xs, ys. repeat (split; [done|]).
  unfold region_samples. rewrite Hxs, Hys. simpl.
  apply reshape_Ok; [done..|]. rewrite length_meshgrid_points. lia.
Qed.

(** A region's counts are [mandelbrot] applied to its samples, cell by
    cell. *)
Lemma compute_mandelbrot_region_samples name (xmin xmax ymin ymax : float)
    (width height max_iter : Z) :
  compute_mandelbrot_region (name, xmin, xmax, ymin, ymax, width, height, max_iter)
  = grid_map (λ c, mandelbrot c max_iter)
      <$> region_samples (name, xmin, xmax, ymin, ymax, width, height, max_iter).
Proof.
  unfold compute_mandelbrot_region, region_samples.
  destruct (linspace xmin xmax width) as [xs|e]; simpl; [|done].
  destruct (linspace ymin ymax height) as [ys|e]; simpl; [|done].
  apply reshape_fmap.
Qed.

Lemma mapM_grid_map {X A B} (g : A → B)
    (f : X → result (grid B)) (h : X → result (grid A)) (l : list X) :
  Forall (λ x, f x = grid_map g <$> h x) l →
  mapM f l = fmap (grid_map g) <$> mapM h l.
Proof.
  induction 1 as [|x l Hx _ IH]; simpl; [done|].
  rewrite Hx, IH. destruct (h x); simpl; [|done].
  by destruct (mapM h l).
Qed.

Lemma assemble_grid_map {A B} (g : A → B) (results : list (grid A)) :
  assemble (grid_map g <$> results) = grid_map g <$> assemble results.
Proof.
  destruct results as [|bl [|br [|tl [|tr [|extra results]]]]]; try done.
  simpl. rewrite !concatenate_axis1_fmap.
  destruct (concatenate_axis1 tl tr) as [top|e]; simpl; [|done].
  destruct (concatenate_axis1 bl br) as [bottom|e]; simpl; [|done].
  apply concatenate_axis0_fmap.
Qed.

(** After line 95 the list of regions is Bottom-left, Top-left,
    Bottom-right, Top-right. *)
Lemma swap_regions_quadrants (self : ZoomableMandelbrot) :
  ∃ bl br tl tr,
    quadrants self = [bl; br; tl; tr]
    ∧ swap_regions (quadrants self) = Ok [bl; tl; br; tr].
Proof. by eexists _, _, _, _. Qed.

(** [final_result] is [mandelbrot] applied to the assembled samples, cell
    by cell. *)
Lemma plot_mandelbrot_samples (self : ZoomableMandelbrot) :
  plot_mandelbrot self
  = grid_map (λ c, mandelbrot c (max_iter self)) <$> plot_samples self.
Proof.
  unfold plot_mandelbrot, plot_samples.
  destruct (swap_regions (quadrants self)) as [regions|e] eqn:Hswap; [|done].
  simpl.
  rewrite (mapM_grid_map (λ c, mandelbrot c (max_iter self)) _ region_samples).
  - destruct (mapM region_samples regions) as [samples|e]; simpl; [|done].
    apply assemble_grid_map.
  - injection Hswap as <-.
    repeat (constructor; [apply compute_mandelbrot_region_samples|]).
    constructor.
Qed.

Lemma region_samples_shape name (xmin xmax ymin ymax : float)
    (width height max_iter : Z) :
  0 ≤ width → 0 ≤ height →
  ∃ g, region_samples (name, xmin, xmax, ymin, ymax, width, height, max_iter) = Ok g
       ∧ has_shape g (Z.to_nat height) (Z.to_nat width).
Proof.
  intros Hw Hh.
  destruct (region_samples_Ok name xmin xmax ymin ymax width height max_iter Hw Hh)
    as (xs & ys & _ & Hlx & _ & Hly & ->).
  eexists. split; [done|].
  apply chunks_has_shape. rewrite length_meshgrid_points. lia.
Qed.

Lemma mapM_Ok {X A} (P : A → Prop) (f : X → result A) (l : list X) :
  Forall (λ x, ∃ a, f x = Ok a ∧ P a) l →
  ∃ k, mapM f l = Ok k ∧ Forall P k ∧ length k = length l.
Proof.
  induction 1 as [|x l (a & Ha & HP) _ (k & Hk & HPk & Hlen)]; simpl.
  - by exists [].
  - rewrite Ha, Hk. exists (a :: k). simpl. auto.
Qed.

Lemma assemble_Ok {A} (results : list (grid A)) rows columns :
  length results = 4%nat →
  Forall (λ g, has_shape g rows columns) results →
  ∃ g, assemble results = Ok g
       ∧ has_shape g (rows + rows) (columns + columns).
Proof.
  intros Hlen Hall.
  destruct results as [|bl [|br [|tl [|tr [|extra results]]]]]; try done.
  apply Forall_cons in Hall as [Hbl Hall]. apply Forall_cons in Hall as [Hbr Hall].
  apply Forall_cons in Hall as [Htl Hall]. apply Forall_cons in Hall as [Htr _].
  destruct (concatenate_axis1_Ok tl tr _ _ _ Htl Htr) as [Htop Hstop].
  destruct (concatenate_axis1_Ok bl br _ _ _ Hbl Hbr) as [Hbottom Hsbottom].
  destruct (concatenate_axis0_Ok _ _ _ _ _ Hsbottom Hstop) as [Hfinal Hsfinal].
  simpl. rewrite Htop, Hbottom. simpl. rewrite Hfinal. eauto.
Qed.

Lemma plot_samples_Ok (self : ZoomableMandelbrot) :
  0 ≤ width self → 0 ≤ height self →
  ∃ g, plot_samples self = Ok g
       ∧ has_shape g (Z.to_nat (height self / 2) + Z.to_nat (height self / 2))
                     (Z.to_nat (width self / 2) + Z.to_nat (width self / 2)).
Proof.
  intros Hw Hh.
  assert (0 ≤ width self / 2) as Hw2 by (apply Z.div_pos; lia).
  assert (0 ≤ height self / 2) as Hh2 by (apply Z.div_pos; lia).
  unfold plot_samples.
  destruct (swap_regions (quadrants self)) as [regions|e] eqn:Hswap; [|done].
  destruct (mapM_Ok
              (λ g, has_shape g (Z.to_nat (height self / 2))
                                (Z.to_nat (width self / 2)))
              region_samples regions)
    as (samples & Hsamples & Hshapes & Hlen).
  { injection Hswap as <-.
    repeat (constructor; [by apply region_samples_shape|]). constructor. }
  simpl. rewrite Hsamples. simpl.
  apply assemble_Ok; [|done]. rewrite Hlen. by injection Hswap as <-.
Qed.

Lemma plot_mandelbrot_Ok (self : ZoomableMandelbrot) :
  0 ≤ width self → 0 ≤ height self →
  ∃ g, plot_mandelbrot self = Ok g
       ∧ has_shape g (Z.to_nat (height self / 2) + Z.to_nat (height self / 2))
                     (Z.to_nat (width self / 2) + Z.to_nat (width self / 2)).
Proof.
  intros Hw Hh. destruct (plot_samples_Ok self Hw Hh) as (g & Hg & Hshape).
  rewrite plot_mandelbrot_samples, Hg. eexists. split; [done|].
  by apply has_shape_fmap.
Qed.

End CpuFacts.

(** ** The CUDA path *)

Section GpuFacts.
Context `{FloatOps}.

Lemma zeros_Ok (rows columns : Z) :
  0 ≤ rows → 0 ≤ columns →
  zeros rows columns
  = Ok (replicate (Z.to_nat rows) (replicate (Z.to_nat columns) 0))
  ∧ has_shape (replicate (Z.to_nat rows) (replicate (Z.to_nat columns) 0))
              (Z.to_nat rows) (Z.to_nat columns).
Proof.
  intros Hr Hc. unfold zeros.
  assert ((rows <? 0) = false) as -> by (apply Z.ltb_ge; lia).
  assert ((columns <? 0) = false) as -> by (apply Z.ltb_ge; lia).
  split; [done|]. split; [apply length_replicate|].
  apply Forall_replicate, length_replicate.
Qed.

(** A store inside the array succeeds, changes the addressed cell and no
    other, and keeps the shape. *)
Lemma image_store_Ok (image : grid Z) (rows columns : nat) (row column color : Z) :
  has_shape image rows columns →
  0 ≤ row < Z.of_nat rows → 0 ≤ column < Z.of_nat columns →
  ∃ image',
    image_store image row column color = Ok image'
    ∧ has_shape image' rows columns
    ∧ cell image' (Z.to_nat row) (Z.to_nat column) = Some (to_int32 color)
    ∧ (∀ i j : nat, (Z.of_nat j, Z.of_nat i) ≠ (column, row) →
         cell image' i j = cell image i j).
Proof.
  intros [Hrows Hcols] Hrow Hcol. unfold image_store.
  assert ((row <? 0) = false) as -> by (apply Z.ltb_ge; lia).
  assert ((column <? 0) = false) as -> by (apply Z.ltb_ge; lia).
  simpl.
  destruct (image !! Z.to_nat row) as [r|] eqn:Hr.
  2:{ apply lookup_ge_None in Hr. lia. }
  pose proof (Forall_lookup_1 _ _ _ _ Hcols Hr) as Hlen. simpl in Hlen.
  rewrite decide_True by lia.
  eexists. split; [done|]. split; [|split].
  - split; [by rewrite length_insert|].
    apply Forall_insert; [done|]. by rewrite length_insert.
  - unfold cell. rewrite list_lookup_insert_eq by lia. simpl.
    apply list_lookup_insert_eq. lia.
  - intros i j Hne. unfold cell.
    destruct (decide (i = Z.to_nat row)) as [->|Hi].
    + rewrite list_lookup_insert_eq by lia. rewrite Hr. simpl.
      apply list_lookup_insert_ne. intros <-. apply Hne. f_equal; lia.
    + by rewrite list_lookup_insert_ne.
Qed.

(** Membership in the list of launched threads. *)
Lemma elem_of_launch_threads (bpg tpb : Z * Z) (t : thread) :
  t ∈ launch_threads bpg tpb ↔
    0 ≤ (blockIdx t).1 < bpg.1 ∧ 0 ≤ (blockIdx t).2 < bpg.2
    ∧ 0 ≤ (threadIdx t).1 < tpb.1 ∧ 0 ≤ (threadIdx t).2 < tpb.2.
Proof.
  unfold launch_threads. destruct t as [[bx by_] [tx ty]]. simpl.
  repeat setoid_rewrite list_elem_of_bind.
  setoid_rewrite list_elem_of_singleton.
  repeat setoid_rewrite elem_of_seqZ.
  split.
  - intros (y1 & (y2 & (y3 & (y4 & Heq & ?) & ?) & ?) & ?).
    injection Heq as -> -> -> ->. lia.
  - intros (? & ? & ? & ?). exists by_. split; [|lia].
    exists bx. split; [|lia]. exists ty. split; [|lia].
    exists tx. split; [done | lia].
Qed.

(** The position of a launched thread is never negative. *)
Lemma launch_threads_nonneg (bpg : Z * Z) (t : thread) :
  t ∈ launch_threads bpg threadsperblock →
  0 ≤ (cuda_grid threadsperblock t).1 ∧ 0 ≤ (cuda_grid threadsperblock t).2.
Proof.
  intros Ht. apply elem_of_launch_threads in Ht.
  unfold cuda_grid, threadsperblock in *. simpl in *. lia.
Qed.

(** Ceiling division: [blockspergrid] blocks of 16 threads cover every
    pixel. *)
Lemma blockspergrid_covers (width height : Z) :
  width ≤ (blockspergrid width height).1 * 16
  ∧ height ≤ (blockspergrid width height).2 * 16.
Proof.
  unfold blockspergrid, threadsperblock. simpl.
  split; Z.to_euclidean_division_equations; lia.
Qed.

(** Every pixel is the position of a launched thread. *)
Lemma pixel_has_thread (width height column row : Z) :
  0 ≤ column < width → 0 ≤ row < height →
  ∃ t, t ∈ launch_threads (blockspergrid width height) threadsperblock
       ∧ cuda_grid threadsperblock t = (column, row).
Proof.
  intros Hc Hr.
  exists {| blockIdx := (column / 16, row / 16);
            threadIdx := (column mod 16, row mod 16) |}.
  split.
  - apply elem_of_launch_threads.
    unfold blockspergrid, threadsperblock. simpl.
    repeat split; Z.to_euclidean_division_equations; lia.
  - unfold cuda_grid, threadsperblock. simpl.
    f_equal; Z.to_euclidean_division_equations; lia.
Qed.

Section Launch.
Variables (min_x max_x min_y max_y : float) (width height max_iter : Z).

(** The kernel as [compute_mandelbrot_gpu] launches it, and the colour it
    computes for a pixel. *)
Local Abbreviation kernel :=
  (λ (t : thread) (image : grid Z),
     mandelbrot_kernel threadsperblock t
       min_x max_x min_y max_y width height image max_iter).

Local Abbreviation color :=
  (pixel_color min_x max_x min_y max_y width height max_iter).

(** One thread: inside the guard it stores its pixel's colour at
    [image[row, column]], outside it does nothing. *)
Lemma mandelbrot_kernel_guard (t : thread) (image : grid Z) :
  let '(column, row) := cuda_grid threadsperblock t in
  (column < width ∧ row < height →
     kernel t image = image_store image row column (color column row))
  ∧ (¬ (column < width ∧ row < height) → kernel t image = Ok image).
Proof.
  unfold mandelbrot_kernel, pixel_color, spec_sample.
  destruct (cuda_grid threadsperblock t) as [column row].
  split.
  - intros [Hc Hr].
    assert ((column <? width) = true) as -> by (by apply Z.ltb_lt).
    assert ((row <? height) = true) as -> by (by apply Z.ltb_lt). done.
  - intros Hout.
    destruct (column <? width) eqn:Hc; [|done].
    destruct (row <? height) eqn:Hr; [|done].
    apply Z.ltb_lt in Hc, Hr. tauto.
Qed.

Lemma mandelbrot_kernel_step (t : thread) (image : grid Z) :
  has_shape image (Z.to_nat height) (Z.to_nat width) →
  0 ≤ (cuda_grid threadsperblock t).1 →
  0 ≤ (cuda_grid threadsperblock t).2 →
  ∃ image',
    kernel t image = Ok image'
    ∧ has_shape image' (Z.to_nat height) (Z.to_nat width)
    ∧ ∀ i j : nat, (i < Z.to_nat height)%nat → (j < Z.to_nat width)%nat →
        (cuda_grid threadsperblock t = (Z.of_nat j, Z.of_nat i) →
           cell image' i j = Some (to_int32 (color (Z.of_nat j) (Z.of_nat i))))
        ∧ (cuda_grid threadsperblock t ≠ (Z.of_nat j, Z.of_nat i) →
           cell image' i j = cell image i j).
Proof.
  intros Hshape Hc0 Hr0.
  pose proof (mandelbrot_kernel_guard t image) as Hguard.
  destruct (cuda_grid threadsperblock t) as [column row]. simpl in Hc0, Hr0.
  destruct Hguard as [Hin Hout].
  destruct (decide (column < width ∧ row < height)) as [[Hc Hr]|Hno].
  - destruct (image_store_Ok image _ _ row column (color column row) Hshape)
      as (image' & Hstore & Hshape' & Hnew & Hold); [lia..|].
    exists image'. rewrite Hin by done. repeat (split; [done|]).
    intros i j Hi Hj. split.
    + intros [= -> ->]. by rewrite !Nat2Z.id in Hnew.
    + intros Hne. apply Hold. congruence.
  - exists image. rewrite Hout by done. repeat (split; [done|]).
    intros i j Hi Hj. split; [|done].
    intros [= -> ->]. lia.
Qed.

(** The whole launch: no thread faults, the shape is kept, a pixel some
    thread is positioned on holds its colour, and any other cell is left
    as it was. *)
Lemma run_threads_spec (ts : list thread) (image : grid Z) :
  has_shape image (Z.to_nat height) (Z.to_nat width) →
  Forall (λ t, 0 ≤ (cuda_grid threadsperblock t).1
               ∧ 0 ≤ (cuda_grid threadsperblock t).2) ts →
  ∃ image',
    run_threads kernel ts image = Ok image'
    ∧ has_shape image' (Z.to_nat height) (Z.to_nat width)
    ∧ ∀ i j : nat, (i < Z.to_nat height)%nat → (j < Z.to_nat width)%nat →
        (Exists (λ t, cuda_grid threadsperblock t = (Z.of_nat j, Z.of_nat i)) ts →
           cell image' i j = Some (to_int32 (color (Z.of_nat j) (Z.of_nat i))))
        ∧ (Forall (λ t, cuda_grid threadsperblock t
                        ≠ (Z.of_nat j, Z.of_nat i)) ts →
           cell image' i j = cell image i j).
Proof.
  intros Hshape Hpos. revert image Hshape.
  induction Hpos as [|t ts [Hc0 Hr0] _ IH]; intros image Hshape.
  - exists image. repeat (split; [done|]). intros i j _ _.
    split; [by intros ?%Exists_nil | done].
  - destruct (mandelbrot_kernel_step t image Hshape Hc0 Hr0)
      as (image1 & Hstep & Hshape1 & Hcell1).
    destruct (IH image1 Hshape1) as (image' & Hrun & Hshape' & Hcell').
    exists image'. simpl. rewrite Hstep. simpl.
    repeat (split; [done|]).
    intros i j Hi Hj.
    destruct (Hcell1 i j Hi Hj) as [Hhit1 Hmiss1].
    destruct (Hcell' i j Hi Hj) as [Hhit' Hmiss'].
    split.
    + intros Hex.
      destruct (Forall_Exists_dec
                  (λ t, cuda_grid threadsperblock t ≠ (Z.of_nat j, Z.of_nat i))
                  (λ t, cuda_grid threadsperblock t = (Z.of_nat j, Z.of_nat i))
                  (λ t, match decide (cuda_grid threadsperblock t
                                      = (Z.of_nat j, Z.of_nat i)) with
                        | left e => right e | right n => left n end) ts)
        as [Hnone|Hsome]; [|by apply Hhit'].
      rewrite Hmiss' by done. apply Hhit1.
      apply Exists_cons in Hex as [Ht|Hts]; [done|].
      apply Exists_exists in Hts as (t' & Hin & Ht').
      by destruct (proj1 (Forall_forall _ _) Hnone t' Hin).
    + intros [Ht Hts]%Forall_cons.
      rewrite Hmiss' by done. by apply Hmiss1.
Qed.

(** [compute_mandelbrot_gpu] returns a [height] x [width] array whose cell
    [[row, column]] is the count of the pixel's sample. *)
Lemma compute_mandelbrot_gpu_cells :
  0 ≤ width → 0 ≤ height →
  ∃ image,
    compute_mandelbrot_gpu min_x max_x min_y max_y width height max_iter = Ok image
    ∧ has_shape image (Z.to_nat height) (Z.to_nat width)
    ∧ ∀ i j : nat, (i < Z.to_nat height)%nat → (j < Z.to_nat width)%nat →
        cell image i j = Some (to_int32 (color (Z.of_nat j) (Z.of_nat i))).
Proof.
  intros Hw Hh. unfold compute_mandelbrot_gpu.
  destruct (zeros_Ok height width Hh Hw) as [-> Hshape]. simpl.
  destruct (run_threads_spec
              (launch_threads (blockspergrid width height) threadsperblock)
              _ Hshape) as (image & Hrun & Hshape' & Hcells).
  { apply Forall_forall. intros t Ht. by eapply launch_threads_nonneg. }
  exists image. repeat (split; [done|]).
  intros i j Hi Hj. apply (Hcells i j Hi Hj).
  apply Exists_exists.
  apply (pixel_has_thread width height (Z.of_nat j) (Z.of_nat i)); lia.
Qed.

(** X17: the threads write disjoint cells: launched in any other order
    they produce the same image. *)
Lemma launch_order_irrelevant (ts : list thread) :
  0 ≤ width → 0 ≤ height →
  ts ≡ₚ launch_threads (blockspergrid width height) threadsperblock →
  zeros height width ≫= run_threads kernel ts
  = compute_mandelbrot_gpu min_x max_x min_y max_y width height max_iter.
Proof.
  intros Hw Hh Hperm.
  destruct compute_mandelbrot_gpu_cells as (image & -> & Hshape & Hcells);
    [done..|].
  destruct (zeros_Ok height width Hh Hw) as [-> Hzeros]. simpl.
  destruct (run_threads_spec ts _ Hzeros)
    as (image' & -> & Hshape' & Hcells').
  { rewrite Hperm. apply Forall_forall. intros t Ht.
    by eapply launch_threads_nonneg. }
  f_equal. apply (grid_ext _ _ _ _ Hshape' Hshape).
  intros i j Hi Hj. rewrite Hcells by done.
  apply (Hcells' i j Hi Hj). rewrite Hperm.
  apply Exists_exists.
  apply (pixel_has_thread width height (Z.of_nat j) (Z.of_nat i)); lia.
Qed.

End Launch.

End GpuFacts.

(** ** The layout of the assembled CPU image *)

Section Layout.
Context `{FloatOps}.


End Layout.


(** ** Sample points of the two paths *)

Section Samples.
Context `{FloatOps}.

(** The cell [[row, col]] of a region's array is the count of the point
    [(x[k / height], y[k mod height])] with [k = row * width + col]: the
    flat list of counts runs over [x] in its outer loop and is cut into
    rows of [width] entries. *)
Lemma compute_mandelbrot_region_cells name (xmin xmax ymin ymax : float)
    (width height max_iter : Z) :
  0 ≤ width → 0 ≤ height →
  ∃ xs ys counts,
    linspace xmin xmax width = Ok xs
    ∧ linspace ymin ymax height = Ok ys
    ∧ compute_mandelbrot_region
        (name, xmin, xmax, ymin, ymax, width, height, max_iter) = Ok counts
    ∧ ∀ row col : nat,
        (row < Z.to_nat height)%nat → (col < Z.to_nat width)%nat →
        ∃ x y,
          xs !! ((row * Z.to_nat width + col) / Z.to_nat height)%nat = Some x
          ∧ ys !! ((row * Z.to_nat width + col) mod Z.to_nat height)%nat = Some y
          ∧ cell counts row col = Some (mandelbrot (Complex x y) max_iter).
Proof.
  intros Hw Hh.
  destruct (region_samples_Ok name xmin xmax ymin ymax width height max_iter Hw Hh)
    as (xs & ys & Hxs & Hlx & Hys & Hly & Hsamples).
  exists xs, ys. eexists. repeat (split; [done|]). split.
  { rewrite compute_mandelbrot_region_samples, Hsamples. reflexivity. }
  intros row col Hrow Hcol.
  set (W := Z.to_nat width) in *. set (Hn := Z.to_nat height) in *.
  set (k := (row * W + col)%nat).
  assert (k < Hn * W)%nat as Hk by (unfold k; nia).
  assert (k / Hn < W)%nat as Hi by (apply Nat.Div0.div_lt_upper_bound; lia).
  assert (k mod Hn < Hn)%nat as Hj by (apply Nat.mod_upper_bound; lia).
  destruct (lookup_lt_is_Some_2 xs (k / Hn)%nat) as [x Hx]; [lia|].
  destruct (lookup_lt_is_Some_2 ys (k mod Hn)%nat) as [y Hy]; [lia|].
  exists x, y. repeat (split; [done|]).
  rewrite cell_fmap, cell_chunks by done. fold k.
  pose proof (lookup_meshgrid_points xs ys _ _ x y Hx Hy) as Hpoint.
  rewrite Hly in Hpoint.
  replace (k / Hn * Hn + k mod Hn)%nat with k in Hpoint
    by (rewrite (Nat.div_mod_eq k Hn) at 1; lia).
  by rewrite Hpoint.
Qed.

(** C5, as the code has it: the CUDA path maps the pixel [(col, row)] to
    [re = xmin + col*(xmax-xmin)/width], [im = ymin + row*(ymax-ymin)/height]
    (its cell holds the count of that point, as an [np.int32]).
    The CPU path does not: a region's cell [[row, col]] is evaluated at
    [(x[k / height], y[k mod height])], [k = row * width + col], where [x]
    and [y] are [np.linspace] over the region's own bounds, whose last
    sample is the upper bound and whose step is the span divided by the
    number of samples minus one. *)
Theorem sample_mappings name (xmin xmax ymin ymax : float)
    (width height max_iter : Z) :
  0 < width → 0 < height →
  (∃ image,
     compute_mandelbrot_gpu xmin xmax ymin ymax width height max_iter = Ok image
     ∧ ∀ row col : nat,
         (row < Z.to_nat height)%nat → (col < Z.to_nat width)%nat →
         cell image row col
         = Some (to_int32
                   (mandelbrot_cuda
                      (spec_sample xmin xmax ymin ymax width height
                         (Z.of_nat col) (Z.of_nat row)) max_iter))
         ∧ (- 2 ^ 31 ≤ max_iter < 2 ^ 31 →
            cell image row col
            = Some (mandelbrot_cuda
                      (spec_sample xmin xmax ymin ymax width height
                         (Z.of_nat col) (Z.of_nat row)) max_iter)))
  ∧ (∃ xs ys counts,
       linspace xmin xmax width = Ok xs
       ∧ linspace ymin ymax height = Ok ys
       ∧ compute_mandelbrot_region
           (name, xmin, xmax, ymin, ymax, width, height, max_iter) = Ok counts
       ∧ (∀ row col : nat,
            (row < Z.to_nat height)%nat → (col < Z.to_nat width)%nat →
            ∃ x y,
              xs !! ((row * Z.to_nat width + col) / Z.to_nat height)%nat = Some x
              ∧ ys !! ((row * Z.to_nat width + col) mod Z.to_nat height)%nat = Some y
              ∧ cell counts row col = Some (mandelbrot (Complex x y) max_iter))
       ∧ (1 < width →
            xs !! Z.to_nat (width - 1) = Some xmax
            ∧ ∀ i, 0 ≤ i < width - 1 →
                xs !! Z.to_nat i
                = Some (let step := ((xmax - xmin) / of_int (width - 1))%F in
                        if feqb step (of_int 0)
                        then (of_int i / of_int (width - 1) * (xmax - xmin) + xmin)%F
                        else (of_int i * step + xmin)%F))
       ∧ (1 < height →
            ys !! Z.to_nat (height - 1) = Some ymax
            ∧ ∀ i, 0 ≤ i < height - 1 →
                ys !! Z.to_nat i
                = Some (let step := ((ymax - ymin) / of_int (height - 1))%F in
                        if feqb step (of_int 0)
                        then (of_int i / of_int (height - 1) * (ymax - ymin) + ymin)%F
                        else (of_int i * step + ymin)%F))).
Proof.
  intros Hw Hh. split.
  - destruct (compute_mandelbrot_gpu_cells xmin xmax ymin ymax width height max_iter)
      as (image & Himage & _ & Hcells); [lia..|].
    exists image. split; [done|]. intros row col Hrow Hcol.
    rewrite (Hcells row col Hrow Hcol). split; [done|].
    intros Hmi. unfold pixel_color. rewrite to_int32_id; [done|].
    pose proof (mandelbrot_cuda_between
                  (spec_sample xmin xmax ymin ymax width height
                     (Z.of_nat col) (Z.of_nat row)) max_iter). lia.
  - destruct (compute_mandelbrot_region_cells name xmin xmax ymin ymax
                width height max_iter) as (xs & ys & counts & Hxs & Hys & Hc & Hcells);
      [lia..|].
    exists xs, ys, counts. repeat (split; [done|]). split.
    + intros Hw1. split; [by eapply linspace_last|].
      intros i Hi. by apply linspace_inner.
    + intros Hh1. split; [by eapply linspace_last|].
      intros i Hi. by apply linspace_inner.
Qed.

(** C6, as the code has it: for a positive [max_iter] below [2^31] (the
    CUDA image is an [np.int32] array), the CPU grid and the CUDA grid
    hold the same count in every cell in which the two paths sample the
    same point and the comparison with the radius is total where the loops
    test it (no NaN magnitude); they sample different points in general,
    so the grids do not agree cell for cell. *)
Theorem grids_agree_where_samples_coincide (self : ZoomableMandelbrot)
    (samples : grid complex) (row col : nat) (s : complex) :
  visited_ordered s →
  0 < width self → 0 < height self → 0 < max_iter self < 2 ^ 31 →
  plot_samples self = Ok samples →
  cell samples row col = Some s →
  s = spec_sample (xmin self) (xmax self) (ymin self) (ymax self)
        (width self) (height self) (Z.of_nat col) (Z.of_nat row) →
  ∃ cpu gpu,
    plot_mandelbrot self = Ok cpu
    ∧ compute_mandelbrot_gpu (xmin self) (xmax self) (ymin self) (ymax self)
        (width self) (height self) (max_iter self) = Ok gpu
    ∧ cell cpu row col = Some (mandelbrot s (max_iter self))
    ∧ cell gpu row col = cell cpu row col.
Proof.
  intros Htot Hw Hh Hmi Hsamples Hcell Hs.
  destruct (plot_samples_Ok self) as (samples' & Hsamples' & Hshape); [lia..|].
  assert (samples' = samples) as -> by congruence.
  destruct (cell_in_shape _ _ _ _ _ _ Hshape Hcell) as [Hrow Hcol].
  destruct (compute_mandelbrot_gpu_cells (xmin self) (xmax self) (ymin self)
              (ymax self) (width self) (height self) (max_iter self))
    as (gpu & Hgpu & _ & Hcells); [lia..|].
  exists (grid_map (λ c, mandelbrot c (max_iter self)) samples), gpu.
  split; [by rewrite plot_mandelbrot_samples, Hsamples|].
  split; [done|].
  assert (cell (grid_map (λ c, mandelbrot c (max_iter self)) samples) row col
          = Some (mandelbrot s (max_iter self))) as Hcpu
    by (by rewrite cell_fmap, Hcell).
  split; [done|]. rewrite Hcpu, Hcells.
  - unfold pixel_color. rewrite <- Hs.
    rewrite <- mandelbrot_cuda_agrees by (done || lia).
    rewrite to_int32_id; [done|].
    pose proof (mandelbrot_range s (max_iter self)). lia.
  - assert (Z.to_nat (height self / 2) + Z.to_nat (height self / 2)
            ≤ Z.to_nat (height self))%nat
      by (Z.to_euclidean_division_equations; lia). lia.
  - assert (Z.to_nat (width self / 2) + Z.to_nat (width self / 2)
            ≤ Z.to_nat (width self))%nat
      by (Z.to_euclidean_division_equations; lia). lia.
Qed.

(** C7, as the code has it: neither entry point checks the viewport.  For
    every viewport, also with [xmin >= xmax] or [ymin >= ymax], and all
    positive [width] and [height], both run to completion and return an
    array. *)
Theorem viewport_is_never_rejected (self : ZoomableMandelbrot) :
  0 < width self → 0 < height self →
  (∃ final_result,
     plot_mandelbrot self = Ok final_result
     ∧ has_shape final_result
         (Z.to_nat (height self / 2) + Z.to_nat (height self / 2))
         (Z.to_nat (width self / 2) + Z.to_nat (width self / 2)))
  ∧ (∃ image,
       compute_mandelbrot_gpu (xmin self) (xmax self) (ymin self) (ymax self)
         (width self) (height self) (max_iter self) = Ok image
       ∧ has_shape image (Z.to_nat (height self)) (Z.to_nat (width self))).
Proof.
  intros Hw Hh. split; [apply plot_mandelbrot_Ok; lia|].
  destruct (compute_mandelbrot_gpu_cells (xmin self) (xmax self) (ymin self)
              (ymax self) (width self) (height self) (max_iter self))
    as (image & Himage & Hshape & _); [lia..|].
  by exists image.
Qed.

(** C9: for positive [width] and [height] the 16 x 16 blocks counted by
    ceiling division cover the image; a thread stores to
    [image[row, column]] exactly when [column < width] and [row < height];
    every pixel is the position of a launched thread and no position is
    negative; so the launch ends without an out-of-bounds store and every
    cell of the [(height, width)] array holds its pixel's count (as the
    [np.int32] it is stored in, which is the count itself when [max_iter]
    fits in 32 bits). *)
Theorem gpu_launch_covers_image (min_x max_x min_y max_y : float)
    (width height max_iter : Z) :
  0 < width → 0 < height →
  (width ≤ (blockspergrid width height).1 * 16
   ∧ height ≤ (blockspergrid width height).2 * 16)
  ∧ (∀ (t : thread) (image : grid Z),
       let '(column, row) := cuda_grid threadsperblock t in
       (column < width ∧ row < height →
          mandelbrot_kernel threadsperblock t
            min_x max_x min_y max_y width height image max_iter
          = image_store image row column
              (pixel_color min_x max_x min_y max_y width height max_iter column row))
       ∧ (¬ (column < width ∧ row < height) →
          mandelbrot_kernel threadsperblock t
            min_x max_x min_y max_y width height image max_iter = Ok image))
  ∧ (∀ column row, 0 ≤ column < width → 0 ≤ row < height →
       ∃ t, t ∈ launch_threads (blockspergrid width height) threadsperblock
            ∧ cuda_grid threadsperblock t = (column, row))
  ∧ (∀ t, t ∈ launch_threads (blockspergrid width height) threadsperblock →
       0 ≤ (cuda_grid threadsperblock t).1 ∧ 0 ≤ (cuda_grid threadsperblock t).2)
  ∧ (∃ image,
       compute_mandelbrot_gpu min_x max_x min_y max_y width height max_iter
       = Ok image
       ∧ has_shape image (Z.to_nat height) (Z.to_nat width)
       ∧ ∀ row col : nat,
           (row < Z.to_nat height)%nat → (col < Z.to_nat width)%nat →
           cell image row col
           = Some (to_int32
                     (pixel_color min_x max_x min_y max_y width height max_iter
                        (Z.of_nat col) (Z.of_nat row)))
           ∧ (- 2 ^ 31 ≤ max_iter < 2 ^ 31 →
              cell image row col
              = Some (pixel_color min_x max_x min_y max_y width height max_iter
                        (Z.of_nat col) (Z.of_nat row)))).
Proof.
  intros Hw Hh.
  split; [apply blockspergrid_covers|].
  split; [intros t image; apply mandelbrot_kernel_guard|].
  split; [intros column row; apply pixel_has_thread|].
  split; [intros t; apply launch_threads_nonneg|].
  destruct (compute_mandelbrot_gpu_cells min_x max_x min_y max_y width height
              max_iter) as (image & Himage & Hshape & Hcells); [lia..|].
  exists image. repeat (split; [done|]). intros row col Hrow Hcol.
  rewrite (Hcells row col Hrow Hcol). split; [done|].
  intros Hmi. unfold pixel_color. rewrite to_int32_id; [done|].
  pose proof (mandelbrot_cuda_between
                (spec_sample min_x max_x min_y max_y width height
                   (Z.of_nat col) (Z.of_nat row)) max_iter). lia.
Qed.

End Samples.

(** ** The theorems at concrete inputs

    Each theorem with hypotheses is applied to a concrete input of the
    rational instance, and each statement of the specification that the
    code does not satisfy is refuted on one. *)



Lemma mandelbrot_least_escape_witness :
  visited_ordered c_near ∧ 0 < 10
  ∧ escape_count_spec c_near 10 (mandelbrot c_near 10).
Proof.
  split; [apply QFloat_visited_ordered|]. split; [lia|].
  apply (mandelbrot_least_escape c_near 10);
    [apply QFloat_visited_ordered | lia].
Defined.

(** C3 fails as stated: [c = 10 + 10j] has [|c| > 2] and both evaluators
    return 1 for it, not 0. *)
Lemma mandelbrot_outside_radius_not_0 :
  cabs_gt c_far (of_int 2) = true
  ∧ mandelbrot c_far 50 = 1
  ∧ mandelbrot_cuda c_far 50 = 1
  ∧ mandelbrot c_far 50 ≠ 0
  ∧ mandelbrot_cuda c_far 50 ≠ 0.
Proof.
  assert (Hcpu : mandelbrot c_far 50 = 1) by (vm_compute; reflexivity).
  assert (Hgpu : mandelbrot_cuda c_far 50 = 1) by (vm_compute; reflexivity).
  rewrite Hcpu, Hgpu. repeat split; try done.
Qed.

Lemma mandelbrot_outside_radius_is_1_witness :
  visited_ordered c_far
  ∧ zero_inside (H := QFloat)
  ∧ first_step_exact (H := QFloat) ∧ 0 < 50
  ∧ cabs_gt c_far (of_int 2) = true
  ∧ mandelbrot c_far 50 = 1
  ∧ mandelbrot_cuda c_far 50 = 1.
Proof.
  split; [apply QFloat_visited_ordered|]. split; [exact QFloat_zero_inside|].
  split; [exact QFloat_first_step_exact|]. split; [lia|].
  split; [reflexivity|].
  apply (mandelbrot_outside_radius_is_1 c_far 50);
    [apply QFloat_visited_ordered | exact QFloat_zero_inside
    | exact QFloat_first_step_exact | lia | reflexivity].
Defined.

Lemma mandelbrot_origin_never_escapes_witness :
  zero_inside (H := QFloat) ∧ zero_fixed (H := QFloat) ∧ 0 < 10
  ∧ mandelbrot (H := QFloat) czero 10 = 10.
Proof.
  split; [exact QFloat_zero_inside|]. split; [exact QFloat_zero_fixed|].
  split; [lia|].
  apply (mandelbrot_origin_never_escapes (H := QFloat) 10);
    [exact QFloat_zero_inside | exact QFloat_zero_fixed | lia].
Defined.

Lemma mandelbrot_count_bounds_witness :
  zero_inside (H := QFloat) ∧ zero_not_outside (H := QFloat) ∧ 1 ≤ 10
  ∧ while_run c_near 10 czero 0 (mandelbrot c_near 10)
  ∧ 1 ≤ mandelbrot c_near 10 ≤ 10
  ∧ 1 ≤ mandelbrot_cuda c_near 10 ≤ 10.
Proof.
  split; [exact QFloat_zero_inside|]. split; [exact QFloat_zero_not_outside|].
  split; [lia|].
  apply (mandelbrot_count_bounds c_near 10);
    [exact QFloat_zero_inside | exact QFloat_zero_not_outside | lia].
Defined.

(** C5 fails as stated: at 4 x 4 pixels on the default viewport the CPU
    path evaluates the cell [[1, 1]] at [0 + 0j], the mapping of the
    specification gives [-1 - 1j] for the pixel [(1, 1)]. *)
Lemma cpu_sample_not_spec_sample :
  ∃ samples,
    plot_samples view_4x4 = Ok samples
    ∧ plot_mandelbrot view_4x4
      = Ok (grid_map (λ c, mandelbrot c (max_iter view_4x4)) samples)
    ∧ cell samples 1 1 = Some (Qcomplex 0 0)
    ∧ spec_sample (xmin view_4x4) (xmax view_4x4) (ymin view_4x4) (ymax view_4x4)
        (width view_4x4) (height view_4x4) 1 1 = Qcomplex (-1) (-1)
    ∧ cell samples 1 1
      ≠ Some (spec_sample (xmin view_4x4) (xmax view_4x4) (ymin view_4x4)
                (ymax view_4x4) (width view_4x4) (height view_4x4) 1 1).
Proof.
  eexists. split; [vm_compute; reflexivity|].
  split; [vm_compute; reflexivity|].
  split; [reflexivity|]. split; [reflexivity|]. discriminate.
Qed.

Lemma sample_mappings_witness :
  0 < 2 ∧ 0 < 2
  ∧ (∃ image,
       compute_mandelbrot_gpu (-2)%Q 0%Q (-2)%Q 0%Q 2 2 10 = Ok image
       ∧ cell image 1 1
         = Some (mandelbrot_cuda (spec_sample (-2)%Q 0%Q (-2)%Q 0%Q 2 2 1 1) 10))
  ∧ (∃ counts,
       compute_mandelbrot_region
         ("Bottom-left"%string, (-2)%Q, 0%Q, (-2)%Q, 0%Q, 2, 2, 10) = Ok counts
       ∧ linspace (-2)%Q 0%Q 2 = Ok [(-2)%Q; 0%Q]
       ∧ cell counts 1 1 = Some (mandelbrot (Qcomplex 0 0) 10)).
Proof.
  split; [lia|]. split; [lia|].
  destruct (sample_mappings (H := QFloat) "Bottom-left"%string
              (-2)%Q 0%Q (-2)%Q 0%Q 2 2 10)
    as [(image & Himage & Hgpu) (xs & ys & counts & Hxs & Hys & Hc & Hcpu & _)];
    [lia | lia |].
  split.
  - exists image. split; [exact Himage|].
    apply (Hgpu 1%nat 1%nat); [simpl; lia | simpl; lia | lia].
  - assert (xs = [(-2)%Q; 0%Q]) as -> by (vm_compute in Hxs; congruence).
    assert (ys = [(-2)%Q; 0%Q]) as -> by (vm_compute in Hys; congruence).
    destruct (Hcpu 1%nat 1%nat) as (x & y & Hx & Hy & Hcell); [simpl; lia..|].
    injection Hx as <-. injection Hy as <-.
    exists counts. repeat split; [exact Hc | exact Hcell].
Defined.

(** C6 fails as stated: on the default viewport ([xmin < xmax],
    [ymin < ymax]) at 4 x 4 pixels with [max_iter = 10] the cell [[1, 1]]
    is 10 in the CPU grid and 3 in the CUDA grid. *)
Lemma cpu_gpu_grids_differ :
  (xmin view_4x4 < xmax view_4x4)%Q ∧ (ymin view_4x4 < ymax view_4x4)%Q
  ∧ ∃ cpu gpu,
      plot_mandelbrot view_4x4 = Ok cpu
      ∧ compute_mandelbrot_gpu (xmin view_4x4) (xmax view_4x4)
          (ymin view_4x4) (ymax view_4x4)
          (width view_4x4) (height view_4x4) (max_iter view_4x4) = Ok gpu
      ∧ cell cpu 1 1 = Some 10
      ∧ cell gpu 1 1 = Some 3
      ∧ cell cpu 1 1 ≠ cell gpu 1 1.
Proof.
  split; [reflexivity|]. split; [reflexivity|].
  eexists _, _. split; [vm_compute; reflexivity|].
  split; [vm_compute; reflexivity|].
  split; [reflexivity|]. split; [reflexivity|]. discriminate.
Qed.

Lemma grids_agree_where_samples_coincide_witness :
  visited_ordered (Qcomplex 0 0)
  ∧ 0 < width view_2x2 ∧ 0 < height view_2x2 ∧ 0 < max_iter view_2x2 < 2 ^ 31
  ∧ plot_samples view_2x2
    = Ok [[Qcomplex (-2) (-2); Qcomplex (-2) 0];
          [Qcomplex 0 (-2); Qcomplex 0 0]]
  ∧ Qcomplex 0 0
    = spec_sample (xmin view_2x2) (xmax view_2x2) (ymin view_2x2) (ymax view_2x2)
        (width view_2x2) (height view_2x2) 1 1
  ∧ ∃ cpu gpu,
      plot_mandelbrot view_2x2 = Ok cpu
      ∧ compute_mandelbrot_gpu (xmin view_2x2) (xmax view_2x2)
          (ymin view_2x2) (ymax view_2x2)
          (width view_2x2) (height view_2x2) (max_iter view_2x2) = Ok gpu
      ∧ cell cpu 1 1 = Some (mandelbrot (Qcomplex 0 0) 10)
      ∧ cell gpu 1 1 = cell cpu 1 1.
Proof.
  split; [apply QFloat_visited_ordered|].
  split; [simpl; lia|]. split; [simpl; lia|]. split; [simpl; lia|].
  split; [vm_compute; reflexivity|]. split; [reflexivity|].
  apply (grids_agree_where_samples_coincide (H := QFloat) view_2x2
           [[Qcomplex (-2) (-2); Qcomplex (-2) 0];
            [Qcomplex 0 (-2); Qcomplex 0 0]] 1 1 (Qcomplex 0 0));
    [apply QFloat_visited_ordered | simpl; lia | simpl; lia | simpl; lia
    | vm_compute; reflexivity | reflexivity | reflexivity].
Defined.

(** C7 fails as stated: with [xmin = xmax] and [ymin > ymax] both entry
    points compute and return a grid. *)
Lemma degenerate_viewport_is_computed :
  (xmax view_degenerate <= xmin view_degenerate)%Q
  ∧ (ymax view_degenerate <= ymin view_degenerate)%Q
  ∧ plot_mandelbrot view_degenerate = Ok [[1; 1]; [1; 1]]
  ∧ compute_mandelbrot_gpu (xmin view_degenerate) (xmax view_degenerate)
      (ymin view_degenerate) (ymax view_degenerate)
      (width view_degenerate) (height view_degenerate)
      (max_iter view_degenerate) = Ok [[1; 1]; [1; 1]].
Proof.
  split; [discriminate|]. split; [discriminate|].
  split; vm_compute; reflexivity.
Qed.

Lemma viewport_is_never_rejected_witness :
  0 < width view_degenerate ∧ 0 < height view_degenerate
  ∧ (∃ final_result,
       plot_mandelbrot view_degenerate = Ok final_result
       ∧ has_shape final_result 2 2)
  ∧ (∃ image,
       compute_mandelbrot_gpu (xmin view_degenerate) (xmax view_degenerate)
         (ymin view_degenerate) (ymax view_degenerate)
         (width view_degenerate) (height view_degenerate)
         (max_iter view_degenerate) = Ok image
       ∧ has_shape image 2 2).
Proof.
  split; [simpl; lia|]. split; [simpl; lia|].
  apply (viewport_is_never_rejected (H := QFloat) view_degenerate); simpl; lia.
Defined.

Lemma gpu_launch_covers_image_witness :
  0 < 2 ∧ 0 < 2
  ∧ ∃ image,
      compute_mandelbrot_gpu (-2)%Q 2%Q (-2)%Q 2%Q 2 2 10 = Ok image
      ∧ has_shape image 2 2
      ∧ cell image 0 1 = Some (pixel_color (-2)%Q 2%Q (-2)%Q 2%Q 2 2 10 1 0).
Proof.
  split; [lia|]. split; [lia|].
  destruct (gpu_launch_covers_image (H := QFloat) (-2)%Q 2%Q (-2)%Q 2%Q 2 2 10)
    as (_ & _ & _ & _ & image & Himage & Hshape & Hcells); [lia | lia |].
  exists image. split; [exact Himage|]. split; [exact Hshape|].
  apply (Hcells 0%nat 1%nat); [simpl; lia | simpl; lia | lia].
Defined.

(** * Further properties of the code *)

(** ** The evaluators and the iteration bound *)

Section IterationBound.
Context `{FloatOps}.
Implicit Types (c z : complex) (n max_iter : Z).

(** X1: raising the bound never changes a count that was below it:
    for [0 <= m <= m'], [mandelbrot c m] is [mandelbrot c m'] cut at [m]. *)
Theorem mandelbrot_truncates c (m m' : Z) :
  0 ≤ m ≤ m' →
  mandelbrot c m = Z.min m (mandelbrot c m').
Proof.
  intros Hm. unfold mandelbrot.
  destruct (mandelbrot_while_spec (Z.to_nat m) c m czero 0)
    as (k & -> & Hk & Hin & Hout); [lia..|].
  destruct (mandelbrot_while_spec (Z.to_nat m') c m' czero 0)
    as (k' & -> & Hk' & Hin' & Hout'); [lia..|].
  rewrite !Z.add_0_l in *.
  destruct (decide (k < k')%nat) as [Hlt|Hge].
  - destruct (decide (Z.of_nat k < m)) as [Hkm|Hkm]; [|lia].
    rewrite Hin' in Hout by done. by specialize (Hout Hkm).
  - destruct (decide (k' < k)%nat) as [Hlt'|Heq]; [|lia].
    rewrite Hin in Hout' by done. discriminate Hout'. lia.
Qed.

(** X2: the same for the CUDA evaluator. *)
Theorem mandelbrot_cuda_truncates c (m m' : Z) :
  0 ≤ m ≤ m' →
  mandelbrot_cuda c m = Z.min m (mandelbrot_cuda c m').
Proof.
  intros Hm. unfold mandelbrot_cuda.
  destruct (mandelbrot_cuda_for_spec (Z.to_nat m) c m czero 0)
    as (k & Hr & Hk & Hin & Hout); [lia|].
  destruct (mandelbrot_cuda_for_spec (Z.to_nat m') c m' czero 0)
    as (k' & Hr' & Hk' & Hin' & Hout'); [lia|].
  rewrite Z2Nat.id in Hr, Hr' by lia. rewrite Hr, Hr', !Z.add_0_l.
  destruct (decide (k < k')%nat) as [Hlt|Hge].
  - destruct (decide (k < Z.to_nat m)%nat) as [Hkm|Hkm]; [|lia].
    rewrite Hin' in Hout by done. by specialize (Hout Hkm).
  - destruct (decide (k' < k)%nat) as [Hlt'|Heq]; [|lia].
    rewrite Hin in Hout' by done. discriminate Hout'. lia.
Qed.

(** X3: with a bound that is not positive the [while] loop is not entered
    and [mandelbrot] returns 0, while the [for] loop is empty and
    [mandelbrot_cuda] returns [max_iter] itself: the two evaluators differ
    for every negative bound. *)
Theorem evaluators_without_iterations c max_iter :
  max_iter ≤ 0 →
  mandelbrot c max_iter = 0
  ∧ mandelbrot_cuda c max_iter = max_iter
  ∧ (max_iter < 0 → mandelbrot c max_iter ≠ mandelbrot_cuda c max_iter).
Proof.
  intros Hneg.
  assert (Hcpu : mandelbrot c max_iter = 0).
  { unfold mandelbrot. replace (Z.to_nat max_iter) with 0%nat by lia. simpl.
    by destruct (cabs_le czero (of_int 2) && (0 <? max_iter)). }
  assert (Hgpu : mandelbrot_cuda c max_iter = max_iter).
  { unfold mandelbrot_cuda. by rewrite seqZ_nil by lia. }
  rewrite Hcpu, Hgpu. repeat split; try done. lia.
Qed.

End IterationBound.

(** ** Errors, shapes and value ranges of the CPU path *)

Section CpuResults.
Context `{FloatOps}.

Lemma linspace_negative (start stop : float) (num : Z) :
  num < 0 → linspace start stop num = Raise ValueError.
Proof.
  intros Hnum. unfold linspace.
  by assert ((num <? 0) = true) as -> by (by apply Z.ltb_lt).
Qed.

Lemma cell_grid_map_inv {A B} (f : A → B) (a : grid A) (i j : nat) (v : B) :
  cell (grid_map f a) i j = Some v → ∃ x, cell a i j = Some x ∧ v = f x.
Proof.
  rewrite cell_fmap. destruct (cell a i j) as [x|]; simpl; [|done].
  intros [= <-]. eauto.
Qed.

Lemma compute_mandelbrot_region_negative name (xmin xmax ymin ymax : float)
    (width height max_iter : Z) :
  width < 0 ∨ height < 0 →
  compute_mandelbrot_region
    (name, xmin, xmax, ymin, ymax, width, height, max_iter) = Raise ValueError.
Proof.
  intros Hneg. unfold compute_mandelbrot_region.
  destruct (decide (width < 0)) as [Hw|Hw].
  - rewrite (linspace_negative xmin xmax width) by done. reflexivity.
  - destruct (linspace_Ok xmin xmax width) as (xs & -> & _); [lia|].
    destruct Hneg as [?|Hh]; [lia|].
    simpl. rewrite (linspace_negative ymin ymax height) by done.
    reflexivity.
Qed.

(** X4: [compute_mandelbrot_region] raises [ValueError] exactly when
    [width] or [height] is negative (the exception of [np.linspace]);
    otherwise it returns an array of shape [(height, width)]. *)
Theorem compute_mandelbrot_region_result name (xmin xmax ymin ymax : float)
    (width height max_iter : Z) :
  (compute_mandelbrot_region
     (name, xmin, xmax, ymin, ymax, width, height, max_iter) = Raise ValueError
   ↔ width < 0 ∨ height < 0)
  ∧ (0 ≤ width → 0 ≤ height →
     ∃ counts,
       compute_mandelbrot_region
         (name, xmin, xmax, ymin, ymax, width, height, max_iter) = Ok counts
       ∧ has_shape counts (Z.to_nat height) (Z.to_nat width)).
Proof.
  assert (Hok : 0 ≤ width → 0 ≤ height →
     ∃ counts,
       compute_mandelbrot_region
         (name, xmin, xmax, ymin, ymax, width, height, max_iter) = Ok counts
       ∧ has_shape counts (Z.to_nat height) (Z.to_nat width)).
  { intros Hw Hh.
    destruct (region_samples_shape name xmin xmax ymin ymax width height
                max_iter Hw Hh) as (g & Hg & Hshape).
    rewrite compute_mandelbrot_region_samples, Hg. eexists. split; [done|].
    by apply has_shape_fmap. }
  split; [|done]. split.
  - intros Hraise.
    destruct (decide (width < 0)) as [?|Hw]; [by left|].
    destruct (decide (height < 0)) as [?|Hh]; [by right|].
    destruct Hok as (counts & Hcounts & _); [lia..|]. congruence.
  - apply compute_mandelbrot_region_negative.
Qed.

(** The pipeline of [plot_mandelbrot], for any worker function: the
    quadrants are processed in the order Bottom-left, Top-left,
    Bottom-right, Top-right. *)
Lemma quadrant_pipeline {A} (f : region_args → result (grid A))
    (self : ZoomableMandelbrot) :
  (regions ← swap_regions (quadrants self);
   results ← mapM f regions;
   assemble results)
  = (bl ← f (quadrant self false false);
     tl ← f (quadrant self false true);
     br ← f (quadrant self true false);
     tr ← f (quadrant self true true);
     assemble [bl; tl; br; tr]).
Proof.
  change (swap_regions (quadrants self))
    with (Ok [quadrant self false false; quadrant self false true;
              quadrant self true false; quadrant self true true]).
  generalize (quadrant self false false), (quadrant self false true),
    (quadrant self true false), (quadrant self true true).
  intros bl tl br tr. simpl.
  destruct (f bl); simpl; [|done]. destruct (f tl); simpl; [|done].
  destruct (f br); simpl; [|done]. by destruct (f tr).
Qed.

(** X5: [plot_mandelbrot] raises [ValueError] exactly when [width] or
    [height] is negative; otherwise it returns an array with
    [2 * (height // 2)] rows and [2 * (width // 2)] columns, which is one
    row or column short of the image for an odd dimension and empty for a
    dimension of 1. *)
Theorem plot_mandelbrot_result (self : ZoomableMandelbrot) :
  (plot_mandelbrot self = Raise ValueError
   ↔ width self < 0 ∨ height self < 0)
  ∧ (0 ≤ width self → 0 ≤ height self →
     ∃ final_result,
       plot_mandelbrot self = Ok final_result
       ∧ has_shape final_result
           (Z.to_nat (height self - height self mod 2))
           (Z.to_nat (width self - width self mod 2))).
Proof.
  assert (Hok : 0 ≤ width self → 0 ≤ height self →
     ∃ final_result,
       plot_mandelbrot self = Ok final_result
       ∧ has_shape final_result
           (Z.to_nat (height self - height self mod 2))
           (Z.to_nat (width self - width self mod 2))).
  { intros Hw Hh.
    destruct (plot_mandelbrot_Ok self Hw Hh) as (g & Hg & Hshape).
    exists g. split; [done|].
    replace (Z.to_nat (height self - height self mod 2))
      with (Z.to_nat (height self / 2) + Z.to_nat (height self / 2))%nat
      by (Z.to_euclidean_division_equations; lia).
    replace (Z.to_nat (width self - width self mod 2))
      with (Z.to_nat (width self / 2) + Z.to_nat (width self / 2))%nat
      by (Z.to_euclidean_division_equations; lia).
    done. }
  split; [|done]. split.
  - intros Hraise.
    destruct (decide (width self < 0)) as [?|Hw]; [by left|].
    destruct (decide (height self < 0)) as [?|Hh]; [by right|].
    destruct Hok as (g & Hg & _); [lia..|]. congruence.
  - intros Hneg. unfold plot_mandelbrot. rewrite quadrant_pipeline.
    assert (compute_mandelbrot_region (quadrant self false false)
            = Raise ValueError) as ->; [|done].
    apply compute_mandelbrot_region_negative.
    destruct Hneg; [left | right]; Z.to_euclidean_division_equations; lia.
Qed.

(** X6: every count of the assembled CPU grid lies in [[0, max_iter]]
    (for a bound that is not negative). *)
Theorem plot_mandelbrot_counts_in_range (self : ZoomableMandelbrot)
    (final_result : grid Z) (row col : nat) (count : Z) :
  0 ≤ max_iter self →
  plot_mandelbrot self = Ok final_result →
  cell final_result row col = Some count →
  0 ≤ count ≤ max_iter self.
Proof.
  intros Hmi Hplot Hcell. rewrite plot_mandelbrot_samples in Hplot.
  destruct (plot_samples self) as [samples|e]; [|done].
  injection Hplot as <-.
  apply cell_grid_map_inv in Hcell as (c & _ & ->).
  by apply mandelbrot_range.
Qed.

End CpuResults.

(** ** Which point each cell of the CPU grid shows *)

Section CpuIndexing.
Context `{FloatOps}.

Lemma cell_app {A} (a b : grid A) (i j : nat) :
  cell (a ++ b) i j
  = if decide (i < length a)%nat then cell a i j else cell b (i - length a) j.
Proof.
  unfold cell. destruct (decide (i < length a)%nat).
  - by rewrite lookup_app_l.
  - by rewrite lookup_app_r by lia.
Qed.

Lemma cell_zip_with_app {A} (a b : grid A) rows c1 c2 (i j : nat) :
  has_shape a rows c1 → has_shape b rows c2 → (i < rows)%nat →
  cell (zip_with app a b) i j
  = if decide (j < c1)%nat then cell a i j else cell b i (j - c1).
Proof.
  intros [Ha Hca] [Hb Hcb] Hi. unfold cell.
  destruct (lookup_lt_is_Some_2 a i) as [ra Hra]; [lia|].
  destruct (lookup_lt_is_Some_2 b i) as [rb Hrb]; [lia|].
  rewrite lookup_zip_with, Hra, Hrb. simpl.
  pose proof (Forall_lookup_1 _ _ _ _ Hca Hra) as Hlen. simpl in Hlen.
  destruct (decide (j < c1)%nat).
  - by rewrite lookup_app_l by lia.
  - by rewrite lookup_app_r, Hlen by lia.
Qed.

(** A square region: the cell [[i, j]] holds the point [(xs[i], ys[j])]. *)
Lemma cell_chunks_meshgrid (xs ys : list float) (rows : nat) (i j : nat) x y :
  xs !! i = Some x → ys !! j = Some y → (i < rows)%nat →
  cell (chunks rows (length ys) (meshgrid_points xs ys)) i j
  = Some (Complex x y).
Proof.
  intros Hx Hy Hi.
  rewrite cell_chunks by (done || by eapply lookup_lt_Some).
  by apply lookup_meshgrid_points.
Qed.

(** X7: for a square region ([width = height]) the cell [[i, j]] of the
    array of [compute_mandelbrot_region] is the count of
    [complex(x[i], y[j])]: the first index runs over [x], the second over
    [y]. *)
Theorem compute_mandelbrot_region_square name (xmin xmax ymin ymax : float)
    (size max_iter : Z) :
  0 ≤ size →
  ∃ xs ys counts,
    linspace xmin xmax size = Ok xs
    ∧ linspace ymin ymax size = Ok ys
    ∧ compute_mandelbrot_region
        (name, xmin, xmax, ymin, ymax, size, size, max_iter) = Ok counts
    ∧ ∀ (i j : nat) x y,
        xs !! i = Some x → ys !! j = Some y →
        cell counts i j = Some (mandelbrot (Complex x y) max_iter).
Proof.
  intros Hsize.
  destruct (region_samples_Ok name xmin xmax ymin ymax size size max_iter)
    as (xs & ys & Hxs & Hlx & Hys & Hly & Hsamples); [done..|].
  exists xs, ys. eexists. repeat (split; [done|]). split.
  { rewrite compute_mandelbrot_region_samples, Hsamples. reflexivity. }
  intros i j x y Hx Hy. rewrite cell_fmap, <- Hly.
  rewrite (cell_chunks_meshgrid xs ys _ i j x y) by
    (done || (rewrite Hly, <- Hlx; by eapply lookup_lt_Some)).
  done.
Qed.

(** The samples behind [final_result] when the quadrants are square. *)
Lemma plot_samples_square (self : ZoomableMandelbrot) :
  0 ≤ width self / 2 → height self / 2 = width self / 2 →
  ∃ X Y samples,
    x_samples self = Ok X
    ∧ y_samples self = Ok Y
    ∧ plot_samples self = Ok samples
    ∧ ∀ (i j : nat) x y,
        X !! i = Some x → Y !! j = Some y →
        cell samples i j = Some (Complex x y).
Proof.
  intros Hn Hsq. unfold plot_samples. rewrite quadrant_pipeline.
  unfold x_samples, y_samples, quadrant. rewrite Hsq.
  set (n := width self / 2) in *.
  destruct (linspace_Ok (xmin self) (x_mid self) n Hn) as (xl & Hxl & Hlxl).
  destruct (linspace_Ok (x_mid self) (xmax self) n Hn) as (xr & Hxr & Hlxr).
  destruct (linspace_Ok (ymin self) (y_mid self) n Hn) as (yl & Hyl & Hlyl).
  destruct (linspace_Ok (y_mid self) (ymax self) n Hn) as (yh & Hyh & Hlyh).
  assert (Hregion : ∀ name xs ys a b c d,
            linspace a b n = Ok xs → linspace c d n = Ok ys →
            length xs = Z.to_nat n → length ys = Z.to_nat n →
            region_samples (name, a, b, c, d, n, n, max_iter self)
            = Ok (chunks (Z.to_nat n) (Z.to_nat n) (meshgrid_points xs ys))).
  { intros name xs ys a b c d Hx Hy Hlx Hly. unfold region_samples.
    rewrite Hx, Hy. simpl. apply reshape_Ok; [done..|].
    rewrite length_meshgrid_points. lia. }
  rewrite (Hregion _ xl yl _ _ _ _ Hxl Hyl Hlxl Hlyl),
    (Hregion _ xl yh _ _ _ _ Hxl Hyh Hlxl Hlyh),
    (Hregion _ xr yl _ _ _ _ Hxr Hyl Hlxr Hlyl),
    (Hregion _ xr yh _ _ _ _ Hxr Hyh Hlxr Hlyh).
  rewrite Hxl, Hxr, Hyl, Hyh. clear Hregion. simpl.
  assert (Hshape : ∀ xs ys,
            length xs = Z.to_nat n → length ys = Z.to_nat n →
            has_shape (chunks (Z.to_nat n) (Z.to_nat n) (meshgrid_points xs ys))
              (Z.to_nat n) (Z.to_nat n)).
  { intros xs ys Hlx Hly. apply chunks_has_shape.
    rewrite length_meshgrid_points. lia. }
  pose proof (Hshape xl yl Hlxl Hlyl) as Hbl.
  pose proof (Hshape xl yh Hlxl Hlyh) as Htl.
  pose proof (Hshape xr yl Hlxr Hlyl) as Hbr.
  pose proof (Hshape xr yh Hlxr Hlyh) as Htr.
  destruct (concatenate_axis1_Ok _ _ _ _ _ Hbr Htr) as [-> Hsecond].
  destruct (concatenate_axis1_Ok _ _ _ _ _ Hbl Htl) as [-> Hfirst].
  simpl.
  destruct (concatenate_axis0_Ok _ _ _ _ _ Hfirst Hsecond) as [-> _].
  eexists _, _, _. repeat (split; [reflexivity|]).
  intros i j x y Hx Hy.
  rewrite cell_app. destruct Hfirst as [-> _].
  pose proof (lookup_lt_Some _ _ _ Hx) as Hi.
  pose proof (lookup_lt_Some _ _ _ Hy) as Hj.
  rewrite length_app in Hi, Hj.
  destruct (decide (i < Z.to_nat n)%nat) as [Hil|Hir].
  - rewrite lookup_app_l in Hx by lia.
    rewrite (cell_zip_with_app _ _ _ _ _ i j Hbl Htl) by done.
    destruct (decide (j < Z.to_nat n)%nat) as [Hjl|Hjr].
    + rewrite lookup_app_l in Hy by lia.
      rewrite <- Hlyl at 2. by apply cell_chunks_meshgrid.
    + rewrite lookup_app_r, Hlyl in Hy by lia.
      rewrite <- Hlyh at 2. by apply cell_chunks_meshgrid.
  - rewrite lookup_app_r, Hlxl in Hx by lia.
    rewrite (cell_zip_with_app _ _ _ _ _ _ j Hbr Htr) by lia.
    destruct (decide (j < Z.to_nat n)%nat) as [Hjl|Hjr].
    + rewrite lookup_app_l in Hy by lia.
      rewrite <- Hlyl at 2. apply cell_chunks_meshgrid; [done..|lia].
    + rewrite lookup_app_r, Hlyl in Hy by lia.
      rewrite <- Hlyh at 2. apply cell_chunks_meshgrid; [done..|lia].
Qed.

(** X8: when the quadrants are square ([width // 2 = height // 2], as for
    the default 800 x 800 image), [final_result[i, j]] is the count of
    [complex(X[i], Y[j])], where [X] lists the [x] samples of the left
    quadrants followed by those of the right ones and [Y] the [y] samples
    from bottom to top: axis 0 of [final_result] is [x] and axis 1 is [y],
    which is why the array is transposed before it is shown. *)
Theorem plot_mandelbrot_square (self : ZoomableMandelbrot) :
  0 ≤ width self / 2 → height self / 2 = width self / 2 →
  ∃ X Y final_result,
    x_samples self = Ok X
    ∧ y_samples self = Ok Y
    ∧ plot_mandelbrot self = Ok final_result
    ∧ ∀ (i j : nat) x y,
        X !! i = Some x → Y !! j = Some y →
        cell final_result i j
        = Some (mandelbrot (Complex x y) (max_iter self)).
Proof.
  intros Hn Hsq.
  destruct (plot_samples_square self Hn Hsq)
    as (X & Y & samples & HX & HY & Hsamples & Hcells).
  exists X, Y. eexists. repeat (split; [done|]). split.
  { rewrite plot_mandelbrot_samples, Hsamples. reflexivity. }
  intros i j x y Hx Hy. by rewrite cell_fmap, (Hcells i j x y).
Qed.

End CpuIndexing.

(** ** The threads of the CUDA launch *)

Section GpuThreads.
Context `{FloatOps}.

Ltac thread_of H :=
  repeat (apply list_elem_of_bind in H as (? & H & ?));
  apply list_elem_of_singleton in H.

Lemma NoDup_launch_threads (bpg tpb : Z * Z) : NoDup (launch_threads bpg tpb).
Proof.
  unfold launch_threads.
  apply NoDup_bind; [| |apply NoDup_seqZ].
  { intros y1 y2 t _ _ H1 H2. thread_of H1. thread_of H2. congruence. }
  intros by_ _. apply NoDup_bind; [| |apply NoDup_seqZ].
  { intros y1 y2 t _ _ H1 H2. thread_of H1. thread_of H2. congruence. }
  intros bx _. apply NoDup_bind; [| |apply NoDup_seqZ].
  { intros y1 y2 t _ _ H1 H2. thread_of H1. thread_of H2. congruence. }
  intros ty _. apply NoDup_bind; [| |apply NoDup_seqZ].
  { intros y1 y2 t _ _ H1 H2.
    apply list_elem_of_singleton in H1, H2. congruence. }
  intros tx _. apply NoDup_singleton.
Qed.

Lemma launch_position_inj (bpg : Z * Z) (t1 t2 : thread) :
  t1 ∈ launch_threads bpg threadsperblock →
  t2 ∈ launch_threads bpg threadsperblock →
  cuda_grid threadsperblock t1 = cuda_grid threadsperblock t2 →
  t1 = t2.
Proof.
  intros H1%elem_of_launch_threads H2%elem_of_launch_threads.
  destruct t1 as [[bx1 by1] [tx1 ty1]], t2 as [[bx2 by2] [tx2 ty2]].
  unfold cuda_grid, threadsperblock in *. simpl in *.
  intros [= Hx Hy].
  assert (bx1 = bx2 ∧ tx1 = tx2 ∧ by1 = by2 ∧ ty1 = ty2) as (-> & -> & -> & ->)
    by lia.
  done.
Qed.

(** X9: two different threads of a launch never have the same position:
    each cell of the image is stored to by at most one thread, so there is
    no write-write race on [image]. *)
Theorem launched_threads_own_their_pixel (bpg : Z * Z) (t1 t2 : thread) :
  t1 ∈ launch_threads bpg threadsperblock →
  t2 ∈ launch_threads bpg threadsperblock →
  t1 ≠ t2 →
  cuda_grid threadsperblock t1 ≠ cuda_grid threadsperblock t2.
Proof.
  intros H1 H2 Hne Heq. apply Hne. by eapply launch_position_inj.
Qed.

Lemma length_bind_const {A B} (f : A → list B) (l : list A) (m : nat) :
  (∀ x, x ∈ l → length (f x) = m) → length (l ≫= f) = (length l * m)%nat.
Proof.
  induction l as [|x l IH]; intros Hf; [done|].
  rewrite bind_cons, length_app, IH, Hf; [simpl; lia | left |].
  intros y Hy. apply Hf. by right.
Qed.

(** The pixels of a [height] x [width] image. *)
Lemma pixels_of_image (width height : Z) :
  let pixels :=
    seqZ 0 width ≫= λ column, seqZ 0 height ≫= λ row, [(column, row)] in
  NoDup pixels
  ∧ length pixels = (Z.to_nat width * Z.to_nat height)%nat
  ∧ ∀ column row, (column, row) ∈ pixels
                  ↔ 0 ≤ column < width ∧ 0 ≤ row < height.
Proof.
  intros pixels. subst pixels. split; [|split].
  - apply NoDup_bind; [| |apply NoDup_seqZ].
    { intros y1 y2 p _ _ H1 H2.
      apply list_elem_of_bind in H1 as (? & H1%list_elem_of_singleton & _).
      apply list_elem_of_bind in H2 as (? & H2%list_elem_of_singleton & _).
      congruence. }
    intros column _. apply NoDup_bind; [| |apply NoDup_seqZ].
    { intros y1 y2 p _ _ H1%list_elem_of_singleton H2%list_elem_of_singleton.
      congruence. }
    intros row _. apply NoDup_singleton.
  - rewrite (length_bind_const _ _ (Z.to_nat height)), length_seqZ; [done|].
    intros column _.
    rewrite (length_bind_const _ _ 1%nat), length_seqZ; [lia | done].
  - intros column row. rewrite list_elem_of_bind.
    setoid_rewrite list_elem_of_bind.
    setoid_rewrite list_elem_of_singleton.
    setoid_rewrite elem_of_seqZ. split.
    + intros (c & (r & [= -> ->] & Hr) & Hc). lia.
    + intros [Hc Hr]. exists column. split; [|lia]. exists row. split; [done|lia].
Qed.

(** X10: a launch has [256 * blockspergrid_x * blockspergrid_y] threads,
    and exactly [width * height] of them pass the boundary guard of the
    kernel; the rest do nothing. *)
Theorem launch_thread_count (width height : Z) :
  0 ≤ width → 0 ≤ height →
  length (launch_threads (blockspergrid width height) threadsperblock)
  = (256 * Z.to_nat (blockspergrid width height).1
         * Z.to_nat (blockspergrid width height).2)%nat
  ∧ length (filter (λ t, (cuda_grid threadsperblock t).1 < width
                         ∧ (cuda_grid threadsperblock t).2 < height)
              (launch_threads (blockspergrid width height) threadsperblock))
    = (Z.to_nat width * Z.to_nat height)%nat.
Proof.
  intros Hw Hh. split.
  - unfold launch_threads.
    rewrite (length_bind_const _ _
               (Z.to_nat (blockspergrid width height).1 * 256)%nat),
      length_seqZ; [lia|].
    intros by_ _. rewrite (length_bind_const _ _ 256%nat), length_seqZ; [lia|].
    intros bx _. rewrite (length_bind_const _ _ 16%nat), length_seqZ; [done|].
    intros ty _. rewrite (length_bind_const _ _ 1%nat), length_seqZ; [done|].
    done.
  - destruct (pixels_of_image width height) as (Hnodup & <- & Hpixels).
    set (guard := λ t : thread, (cuda_grid threadsperblock t).1 < width
                                ∧ (cuda_grid threadsperblock t).2 < height).
    set (launch := launch_threads (blockspergrid width height) threadsperblock).
    rewrite <- (length_fmap (cuda_grid threadsperblock) (filter guard launch)).
    apply Permutation_length, NoDup_Permutation; [|done|].
    + apply NoDup_fmap_2_strong.
      * intros t1 t2 [_ H1]%list_elem_of_filter [_ H2]%list_elem_of_filter.
        by apply (launch_position_inj (blockspergrid width height)).
      * apply NoDup_filter, NoDup_launch_threads.
    + intros [column row]. rewrite Hpixels, list_elem_of_fmap. split.
      * intros (t & Heq & [[Hc Hr] Ht]%list_elem_of_filter).
        apply launch_threads_nonneg in Ht. rewrite <- Heq in *.
        simpl in *. lia.
      * intros [Hc Hr].
        destruct (pixel_has_thread width height column row Hc Hr)
          as (t & Ht & Heq).
        exists t. split; [done|]. apply list_elem_of_filter.
        split; [|done]. unfold guard. rewrite Heq. simpl. lia.
Qed.

(** X11: every entry of the CUDA image is an integer of 32 bits, and for
    a bound [0 <= max_iter < 2^31] it lies in [[0, max_iter]]. *)
Theorem compute_mandelbrot_gpu_counts_in_range (min_x max_x min_y max_y : float)
    (width height max_iter : Z) (image : grid Z) (row col : nat) (count : Z) :
  compute_mandelbrot_gpu min_x max_x min_y max_y width height max_iter = Ok image →
  cell image row col = Some count →
  - 2 ^ 31 ≤ count < 2 ^ 31
  ∧ (0 ≤ max_iter < 2 ^ 31 → 0 ≤ count ≤ max_iter).
Proof.
  intros Himage Hcell.
  destruct (decide (0 ≤ width ∧ 0 ≤ height)) as [[Hw Hh]|Hneg].
  - destruct (compute_mandelbrot_gpu_cells min_x max_x min_y max_y
                width height max_iter Hw Hh) as (image' & Himage' & Hshape & Hcells).
    assert (image' = image) as -> by congruence.
    destruct (cell_in_shape _ _ _ _ _ _ Hshape Hcell) as [Hrow Hcol].
    rewrite Hcells in Hcell by done. injection Hcell as <-.
    split; [apply to_int32_range|]. intros Hmi.
    unfold pixel_color. rewrite to_int32_id.
    + apply mandelbrot_cuda_range. lia.
    + pose proof (mandelbrot_cuda_range
                    (spec_sample min_x max_x min_y max_y width height
                       (Z.of_nat col) (Z.of_nat row)) max_iter). lia.
  - unfold compute_mandelbrot_gpu, zeros in Himage.
    destruct (height <? 0) eqn:Hh; [done|].
    destruct (width <? 0) eqn:Hw; [done|].
    apply Z.ltb_ge in Hh, Hw. lia.
Qed.

End GpuThreads.

(** ** The middle of the CPU image *)

Section Midline.
Context `{FloatOps}.

Lemma cell_outside {A} (a : grid A) rows columns (i j : nat) :
  has_shape a rows columns → (columns ≤ j)%nat → cell a i j = None.
Proof.
  intros [_ Hcols] Hj. unfold cell.
  destruct (a !! i) as [r|] eqn:Hr; simpl; [|done].
  apply lookup_ge_None_2.
  pose proof (Forall_lookup_1 _ _ _ _ Hcols Hr) as Hlen. simpl in Hlen. lia.
Qed.

(** X12: [np.linspace] includes both ends of its interval, so the left
    quadrants end at [x_mid] and the right quadrants start there: when the
    first sample of [np.linspace(x_mid, xmax, n)] is [x_mid] itself, the
    rows [n - 1] and [n] of [final_result] (square quadrants of [n > 1]
    samples) hold the same counts. *)
Theorem midline_computed_twice (self : ZoomableMandelbrot)
    (right : list float) (final_result : grid Z) (j : nat) :
  1 < width self / 2 → height self / 2 = width self / 2 →
  linspace (x_mid self) (xmax self) (width self / 2) = Ok right →
  right !! 0%nat = Some (x_mid self) →
  plot_mandelbrot self = Ok final_result →
  cell final_result (Z.to_nat (width self / 2 - 1)) j
  = cell final_result (Z.to_nat (width self / 2)) j.
Proof.
  intros Hn Hsq Hright Hfirst Hplot.
  destruct (plot_samples_square self) as (X & Y & samples & HX & HY & Hs & Hcells);
    [lia | done |].
  rewrite plot_mandelbrot_samples, Hs in Hplot. injection Hplot as <-.
  rewrite !cell_fmap. f_equal.
  destruct (plot_samples_Ok self) as (samples' & Hs' & Hshape).
  { Z.to_euclidean_division_equations; lia. }
  { Z.to_euclidean_division_equations; lia. }
  assert (samples' = samples) as -> by congruence.
  unfold x_samples in HX. unfold y_samples in HY. rewrite Hsq in HY.
  destruct (linspace_Ok (xmin self) (x_mid self) (width self / 2))
    as (left & Hleft & Hlen); [lia|].
  pose proof (linspace_last _ _ _ _ Hn Hleft) as Hlast.
  destruct (linspace_Ok (x_mid self) (xmax self) (width self / 2))
    as (right' & Hright' & Hlenr); [lia|].
  assert (right' = right) as -> by congruence.
  rewrite Hleft, Hright in HX. injection HX as <-.
  destruct (linspace_Ok (ymin self) (y_mid self) (width self / 2))
    as (bottom & Hbottom & Hlenb); [lia|].
  destruct (linspace_Ok (y_mid self) (ymax self) (width self / 2))
    as (top & Htop & Hlent); [lia|].
  rewrite Hbottom, Htop in HY. injection HY as <-.
  destruct (decide (j < length (bottom ++ top))%nat) as [Hj|Hj].
  - destruct (lookup_lt_is_Some_2 (bottom ++ top) j Hj) as [y Hy].
    rewrite (Hcells _ j (x_mid self) y), (Hcells _ j (x_mid self) y); try done.
    + rewrite lookup_app_r by lia.
      replace (Z.to_nat (width self / 2) - length left)%nat with 0%nat by lia.
      done.
    + rewrite lookup_app_l by lia. done.
  - rewrite length_app in Hj. rewrite Hsq in Hshape.
    rewrite !(cell_outside _ _ _ _ j Hshape) by lia. done.
Qed.

End Midline.

(** ** The mouse handlers *)

Section ViewerFacts.
Context `{FloatLt}.

Lemma sorted2_ordered (a b : float) :
  flt_asymmetric → flt (sorted2 a b).2 (sorted2 a b).1 = false.
Proof.
  intros Hasym. unfold sorted2.
  destruct (flt b a) eqn:Hba; simpl; [by apply Hasym | done].
Qed.

(** X13: whatever the sequence of mouse events, the iteration bound and
    the image size set by the constructor never change, and whenever no
    drag is pending ([press] is [None]) the selection rectangle has width
    and height 0. *)
Theorem viewer_invariant (max_iter0 width0 height0 : Z)
    (actions : list MouseAction) :
  let self := (run (init max_iter0 width0 height0).1 actions).1 in
  max_iter (view self) = max_iter0
  ∧ width (view self) = width0
  ∧ height (view self) = height0
  ∧ (press self = None →
     rect_width (rect self) = of_int 0 ∧ rect_height (rect self) = of_int 0).
Proof.
  set (Inv := λ s : ViewerState,
    max_iter (view s) = max_iter0 ∧ width (view s) = width0
    ∧ height (view s) = height0
    ∧ (press s = None →
       rect_width (rect s) = of_int 0 ∧ rect_height (rect s) = of_int 0)).
  assert (Hstep : ∀ s a, Inv s → Inv (dispatch s a).1).
  { intros s a (Hm & Hw & Hh & Hrect). unfold Inv.
    destruct a as [e|e|e]; simpl.
    - unfold on_press. destruct (inaxes e); simpl; [|done].
      repeat (split; [done|]). done.
    - unfold on_motion. destruct (press s) as [[xp yp]|] eqn:Hp; simpl.
      + destruct (inaxes e); simpl; repeat (split; [done|]);
          rewrite ?Hp; done.
      + repeat (split; [done|]). intros _. by apply Hrect.
    - unfold on_release. destruct (press s) as [[xp yp]|] eqn:Hp; simpl.
      + destruct (inaxes e); simpl.
        * destruct (sorted2 xp (xdata e)), (sorted2 yp (ydata e)). simpl.
          repeat (split; [done|]). done.
        * repeat (split; [done|]). rewrite Hp. done.
      + repeat (split; [done|]). intros _. by apply Hrect. }
  assert (Hrun : ∀ actions s, Inv s → Inv (run s actions).1).
  { clear actions. intros actions.
    induction actions as [|a actions IH]; intros s Hs; [done|].
    simpl. specialize (Hstep s a Hs).
    destruct (dispatch s a) as [s' r]. specialize (IH s' Hstep).
    by destruct (run s' actions). }
  apply Hrun. unfold Inv. simpl. done.
Qed.

(** X14: the handlers sort the two corners of the selection, so the
    viewport is never inverted: if [<] is asymmetric and the initial bounds
    are in order, then after any sequence of mouse events neither
    [xmax < xmin] nor [ymax < ymin] holds. *)
Theorem viewport_never_inverted (max_iter0 width0 height0 : Z)
    (actions : list MouseAction) :
  flt_asymmetric →
  flt (of_int 2) (of_int (-2)) = false →
  let self := (run (init max_iter0 width0 height0).1 actions).1 in
  flt (xmax (view self)) (xmin (view self)) = false
  ∧ flt (ymax (view self)) (ymin (view self)) = false.
Proof.
  intros Hasym Hinit.
  set (Inv := λ s : ViewerState,
    flt (xmax (view s)) (xmin (view s)) = false
    ∧ flt (ymax (view s)) (ymin (view s)) = false).
  assert (Hstep : ∀ s a, Inv s → Inv (dispatch s a).1).
  { intros s a Hs. unfold Inv.
    destruct a as [e|e|e]; simpl.
    - unfold on_press. by destruct (inaxes e).
    - unfold on_motion. destruct (press s) as [[xp yp]|]; [|done].
      by destruct (inaxes e).
    - unfold on_release. destruct (press s) as [[xp yp]|]; [|done].
      destruct (inaxes e); [|done]. simpl.
      pose proof (sorted2_ordered xp (xdata e) Hasym) as Hx.
      pose proof (sorted2_ordered yp (ydata e) Hasym) as Hy.
      destruct (sorted2 xp (xdata e)), (sorted2 yp (ydata e)). done. }
  assert (Hrun : ∀ actions s, Inv s → Inv (run s actions).1).
  { clear actions. intros actions.
    induction actions as [|a actions IH]; intros s Hs; [done|].
    simpl. specialize (Hstep s a Hs).
    destruct (dispatch s a) as [s' r]. specialize (IH s' Hstep).
    by destruct (run s' actions). }
  apply Hrun. unfold Inv. simpl. done.
Qed.

(** X15: a click (press and release at the same point inside the axes)
    sets [xmin = xmax] and [ymin = ymax]; the degenerate viewport is
    rendered all the same: [plot_mandelbrot] is called and, for a positive
    image size, returns an array. *)
Theorem click_zooms_to_a_point (self : ViewerState) (event : MouseEvent) :
  inaxes event = true →
  0 < width (view self) → 0 < height (view self) →
  ∃ self' final_result,
    run self [button_press_event event; button_release_event event]
    = (self', [NoRedraw; Plot (Ok final_result)])
    ∧ plot_mandelbrot (view self') = Ok final_result
    ∧ xmin (view self') = xdata event ∧ xmax (view self') = xdata event
    ∧ ymin (view self') = ydata event ∧ ymax (view self') = ydata event
    ∧ press self' = None.
Proof.
  intros Hin Hw Hh. simpl. unfold on_press, on_release. rewrite Hin. simpl.
  assert (Hx : sorted2 (xdata event) (xdata event) = (xdata event, xdata event))
    by (unfold sorted2; by destruct (flt _ _)).
  assert (Hy : sorted2 (ydata event) (ydata event) = (ydata event, ydata event))
    by (unfold sorted2; by destruct (flt _ _)).
  rewrite Hx, Hy.
  match goal with
  | |- context [Plot (plot_mandelbrot ?v)] =>
      destruct (plot_mandelbrot_Ok v) as (g & Hg & _); [simpl; lia..|];
      rewrite Hg
  end.
  eexists _, g. split; [reflexivity|]. split; [exact Hg|]. repeat split.
Qed.

(** X16: a drag is not cancelled by releasing the button outside the axes:
    [press] stays set, and the next release inside the axes zooms to the
    rectangle spanned by the old press point and the new release point,
    without any new press. *)
Theorem release_outside_keeps_the_drag (self : ViewerState)
    (down out up : MouseEvent) :
  inaxes down = true → inaxes out = false → inaxes up = true →
  ∃ self',
    run self [button_press_event down; button_release_event out;
              button_release_event up]
    = (self', [NoRedraw; NoRedraw; Plot (plot_mandelbrot (view self'))])
    ∧ (xmin (view self'), xmax (view self')) = sorted2 (xdata down) (xdata up)
    ∧ (ymin (view self'), ymax (view self')) = sorted2 (ydata down) (ydata up)
    ∧ press self' = None.
Proof.
  intros Hdown Hout Hup. simpl. unfold on_press, on_release.
  rewrite Hdown, Hout, Hup. simpl.
  destruct (sorted2 (xdata down) (xdata up)) as [x1 x2].
  destruct (sorted2 (ydata down) (ydata up)) as [y1 y2].
  match goal with |- ∃ s, (?self', _) = _ ∧ _ => exists self' end.
  repeat split.
Qed.

End ViewerFacts.

(** ** The further properties at concrete inputs *)

Lemma QFloatLt_asymmetric : flt_asymmetric (H0 := QFloatLt).
Proof.
  intros a b Hab. apply Qlt_bool_iff in Hab.
  destruct (flt b a) eqn:Hba; [|done].
  apply Qlt_bool_iff in Hba. exfalso. eapply Qlt_irrefl, Qlt_trans; eauto.
Qed.

Lemma mandelbrot_truncates_witness :
  0 ≤ 2 ≤ 10 ∧ mandelbrot c_near 2 = Z.min 2 (mandelbrot c_near 10).
Proof. split; [lia|]. apply (mandelbrot_truncates c_near 2 10). lia. Defined.

Lemma mandelbrot_cuda_truncates_witness :
  0 ≤ 2 ≤ 10 ∧ mandelbrot_cuda c_near 2 = Z.min 2 (mandelbrot_cuda c_near 10).
Proof. split; [lia|]. apply (mandelbrot_cuda_truncates c_near 2 10). lia. Defined.

Lemma evaluators_without_iterations_witness :
  -5 ≤ 0
  ∧ mandelbrot c_near (-5) = 0
  ∧ mandelbrot_cuda c_near (-5) = -5
  ∧ (-5 < 0 → mandelbrot c_near (-5) ≠ mandelbrot_cuda c_near (-5)).
Proof. split; [lia|]. apply (evaluators_without_iterations c_near (-5)). lia. Defined.

Lemma plot_mandelbrot_counts_in_range_witness :
  0 ≤ max_iter view_2x2
  ∧ plot_mandelbrot view_2x2 = Ok [[1; 10]; [2; 10]]
  ∧ cell [[1; 10]; [2; 10]] 1 0 = Some 2
  ∧ 0 ≤ 2 ≤ max_iter view_2x2.
Proof.
  split; [simpl; lia|]. split; [vm_compute; reflexivity|].
  split; [reflexivity|].
  apply (plot_mandelbrot_counts_in_range view_2x2 [[1; 10]; [2; 10]] 1 0 2);
    [simpl; lia | vm_compute; reflexivity | reflexivity].
Defined.

Lemma compute_mandelbrot_region_square_witness :
  0 ≤ 2
  ∧ ∃ xs ys counts,
      linspace (-2)%Q 0%Q 2 = Ok xs
      ∧ linspace (-2)%Q 0%Q 2 = Ok ys
      ∧ compute_mandelbrot_region
          ("Bottom-left"%string, (-2)%Q, 0%Q, (-2)%Q, 0%Q, 2, 2, 10) = Ok counts
      ∧ ∀ (i j : nat) x y,
          xs !! i = Some x → ys !! j = Some y →
          cell counts i j = Some (mandelbrot (Qcomplex x y) 10).
Proof.
  split; [lia|].
  apply (compute_mandelbrot_region_square (H := QFloat) "Bottom-left"%string
           (-2)%Q 0%Q (-2)%Q 0%Q 2 10). lia.
Defined.

Lemma plot_mandelbrot_square_witness :
  0 ≤ width view_4x4 / 2 ∧ height view_4x4 / 2 = width view_4x4 / 2
  ∧ ∃ X Y final_result,
      x_samples view_4x4 = Ok X
      ∧ y_samples view_4x4 = Ok Y
      ∧ plot_mandelbrot view_4x4 = Ok final_result
      ∧ ∀ (i j : nat) x y,
          X !! i = Some x → Y !! j = Some y →
          cell final_result i j
          = Some (mandelbrot (Qcomplex x y) (max_iter view_4x4)).
Proof.
  split; [done|]. split; [reflexivity|].
  apply (plot_mandelbrot_square (H := QFloat) view_4x4); [done | reflexivity].
Defined.

Lemma launched_threads_own_their_pixel_witness :
  thread_00 ∈ launch_threads (1, 1) threadsperblock
  ∧ thread_10 ∈ launch_threads (1, 1) threadsperblock
  ∧ thread_00 ≠ thread_10
  ∧ cuda_grid threadsperblock thread_00 ≠ cuda_grid threadsperblock thread_10.
Proof.
  assert (H0 : thread_00 ∈ launch_threads (1, 1) threadsperblock)
    by (apply elem_of_launch_threads; simpl; lia).
  assert (H1 : thread_10 ∈ launch_threads (1, 1) threadsperblock)
    by (apply elem_of_launch_threads; simpl; lia).
  split; [exact H0|]. split; [exact H1|]. split; [discriminate|].
  apply (launched_threads_own_their_pixel (1, 1) thread_00 thread_10);
    [exact H0 | exact H1 | discriminate].
Defined.

Lemma launch_thread_count_witness :
  0 ≤ 2 ∧ 0 ≤ 2
  ∧ length (launch_threads (blockspergrid 2 2) threadsperblock) = 256%nat
  ∧ length (filter (λ t, (cuda_grid threadsperblock t).1 < 2
                         ∧ (cuda_grid threadsperblock t).2 < 2)
              (launch_threads (blockspergrid 2 2) threadsperblock)) = 4%nat.
Proof.
  split; [lia|]. split; [lia|].
  apply (launch_thread_count 2 2); lia.
Defined.

Lemma compute_mandelbrot_gpu_counts_in_range_witness :
  compute_mandelbrot_gpu (-2)%Q 2%Q (-2)%Q 2%Q 2 2 10 = Ok [[1; 2]; [10; 10]]
  ∧ cell [[1; 2]; [10; 10]] 0 1 = Some 2
  ∧ - 2 ^ 31 ≤ 2 < 2 ^ 31
  ∧ (0 ≤ 10 < 2 ^ 31 → 0 ≤ 2 ≤ 10).
Proof.
  split; [vm_compute; reflexivity|]. split; [reflexivity|].
  apply (compute_mandelbrot_gpu_counts_in_range (H := QFloat)
           (-2)%Q 2%Q (-2)%Q 2%Q 2 2 10 [[1; 2]; [10; 10]] 0 1 2);
    [vm_compute; reflexivity | reflexivity].
Defined.

Lemma midline_computed_twice_witness :
  1 < width view_4x4 / 2 ∧ height view_4x4 / 2 = width view_4x4 / 2
  ∧ linspace (x_mid view_4x4) (xmax view_4x4) (width view_4x4 / 2)
    = Ok [0%Q; 2%Q]
  ∧ [0%Q; 2%Q] !! 0%nat = Some (x_mid view_4x4)
  ∧ plot_mandelbrot view_4x4
    = Ok [[1; 10; 10; 1]; [2; 10; 10; 2]; [2; 10; 10; 2]; [1; 2; 2; 1]]
  ∧ cell [[1; 10; 10; 1]; [2; 10; 10; 2]; [2; 10; 10; 2]; [1; 2; 2; 1]] 1 0
    = cell [[1; 10; 10; 1]; [2; 10; 10; 2]; [2; 10; 10; 2]; [1; 2; 2; 1]] 2 0.
Proof.
  split; [done|]. split; [reflexivity|]. split; [vm_compute; reflexivity|].
  split; [reflexivity|]. split; [vm_compute; reflexivity|].
  apply (midline_computed_twice (H := QFloat) view_4x4 [0%Q; 2%Q]
           [[1; 10; 10; 1]; [2; 10; 10; 2]; [2; 10; 10; 2]; [1; 2; 2; 1]] 0);
    [done | reflexivity | vm_compute; reflexivity | reflexivity
    | vm_compute; reflexivity].
Defined.

Lemma viewport_never_inverted_witness :
  flt_asymmetric (H0 := QFloatLt)
  ∧ flt (FloatLt := QFloatLt) (of_int 2) (of_int (-2)) = false
  ∧ let self :=
      (run (init 10 4 4).1
         [button_press_event pointer_a; motion_notify_event pointer_b;
          button_release_event pointer_b]).1 in
    flt (xmax (view self)) (xmin (view self)) = false
    ∧ flt (ymax (view self)) (ymin (view self)) = false.
Proof.
  split; [exact QFloatLt_asymmetric|]. split; [reflexivity|].
  apply (viewport_never_inverted (H0 := QFloatLt) 10 4 4);
    [exact QFloatLt_asymmetric | reflexivity].
Defined.

Lemma click_zooms_to_a_point_witness :
  inaxes pointer_a = true
  ∧ 0 < width (view viewer_4x4) ∧ 0 < height (view viewer_4x4)
  ∧ ∃ self' final_result,
      run viewer_4x4 [button_press_event pointer_a; button_release_event pointer_a]
      = (self', [NoRedraw; Plot (Ok final_result)])
      ∧ plot_mandelbrot (view self') = Ok final_result
      ∧ xmin (view self') = xdata pointer_a ∧ xmax (view self') = xdata pointer_a
      ∧ ymin (view self') = ydata pointer_a ∧ ymax (view self') = ydata pointer_a
      ∧ press self' = None.
Proof.
  split; [reflexivity|]. split; [simpl; lia|]. split; [simpl; lia|].
  apply (click_zooms_to_a_point (H0 := QFloatLt) viewer_4x4 pointer_a);
    [reflexivity | simpl; lia | simpl; lia].
Defined.

Lemma release_outside_keeps_the_drag_witness :
  inaxes pointer_a = true ∧ inaxes pointer_out = false ∧ inaxes pointer_b = true
  ∧ ∃ self',
      run viewer_4x4 [button_press_event pointer_a; button_release_event pointer_out;
                      button_release_event pointer_b]
      = (self', [NoRedraw; NoRedraw; Plot (plot_mandelbrot (view self'))])
      ∧ (xmin (view self'), xmax (view self'))
        = sorted2 (xdata pointer_a) (xdata pointer_b)
      ∧ (ymin (view self'), ymax (view self'))
        = sorted2 (ydata pointer_a) (ydata pointer_b)
      ∧ press self' = None.
Proof.
  split; [reflexivity|]. split; [reflexivity|]. split; [reflexivity|].
  apply (release_outside_keeps_the_drag (H0 := QFloatLt) viewer_4x4
           pointer_a pointer_out pointer_b); reflexivity.
Defined.

Lemma launch_order_irrelevant_witness :
  0 ≤ 2 ∧ 0 ≤ 2
  ∧ reverse (launch_threads (blockspergrid 2 2) threadsperblock)
    ≡ₚ launch_threads (blockspergrid 2 2) threadsperblock
  ∧ zeros 2 2
    ≫= run_threads
         (λ t image, mandelbrot_kernel threadsperblock t
                       (-2)%Q 2%Q (-2)%Q 2%Q 2 2 image 10)
         (reverse (launch_threads (blockspergrid 2 2) threadsperblock))
    = compute_mandelbrot_gpu (-2)%Q 2%Q (-2)%Q 2%Q 2 2 10.
Proof.
  split; [lia|]. split; [lia|]. split; [apply reverse_Permutation|].
  apply (launch_order_irrelevant (H := QFloat) (-2)%Q 2%Q (-2)%Q 2%Q 2 2 10);
    [lia | lia | apply reverse_Permutation].
Defined.
